(** * AmpScan statistical shape model: [AmpScan/pca.py]

    A shallow embedding of the class [pca] (methods [register], [pca] and
    [newShape]) together with the pieces of numpy the three methods call,
    and the properties of the shape-model pipeline stated over it.

    Numbers are kept abstract behind the interface [Numeric]; it is
    instantiated with [Z] (exact arithmetic) and with binary64 floats
    (which carry the non-finite values).  Python objects are records of
    optional attributes, exceptions are values of [pyexn], and a method is
    a function from the object to an outcome and the mutated object. *)

From Stdlib Require Import String List ZArith Bool Arith Lia Floats.
Import ListNotations.
Local Open Scope string_scope.
Local Open Scope nat_scope.

Set Implicit Arguments.

(** ** Numbers *)

Class Numeric (R : Type) : Type := {
  rzero : R;
  radd : R -> R -> R;
  rsub : R -> R -> R;
  rmul : R -> R -> R;
  rdiv : R -> R -> R;
  rsqrt : R -> R;
  of_count : nat -> R;
  is_finite : R -> bool
}.

#[export] Instance Numeric_Z : Numeric Z := {|
  rzero := 0%Z;
  radd := Z.add;
  rsub := Z.sub;
  rmul := Z.mul;
  rdiv := Z.div;
  rsqrt := Z.sqrt;
  of_count := Z.of_nat;
  is_finite := fun _ => true
|}.

#[export] Instance Numeric_float : Numeric float := {|
  rzero := PrimFloat.zero;
  radd := PrimFloat.add;
  rsub := PrimFloat.sub;
  rmul := PrimFloat.mul;
  rdiv := PrimFloat.div;
  rsqrt := PrimFloat.sqrt;
  of_count := fun n => PrimFloat.of_uint63 (Uint63.of_Z (Z.of_nat n));
  is_finite := fun f => negb (PrimFloat.is_nan f || PrimFloat.is_infinity f)
|}.

(** ** Exceptions and outcomes *)

Inductive pyexn : Type :=
| AttributeError (attr : string)
| UnboundLocalError (var : string)
| ValueError (msg : string)
| AxisError (axis ndim : nat)
| LinAlgError
| CollaboratorError (cls : string).

(** The Python class name under which an exception is caught. *)
Definition exn_class (e : pyexn) : string :=
  match e with
  | AttributeError _ => "AttributeError"
  | UnboundLocalError _ => "UnboundLocalError"
  | ValueError _ => "ValueError"
  | AxisError _ _ => "AxisError"
  | LinAlgError => "LinAlgError"
  | CollaboratorError cls => cls
  end.

Inductive outcome (A : Type) : Type :=
| Ok (a : A)
| Raise (e : pyexn).

Arguments Ok {A} a.
Arguments Raise {A} e.

Definition obind {A B : Type} (o : outcome A) (f : A -> outcome B) : outcome B :=
  match o with
  | Ok a => f a
  | Raise e => Raise e
  end.

(** ** Arrays *)

(** A two-dimensional array of shape [(length rows, ncols)]. *)
Record matrix (R : Type) : Type := Mat {
  ncols : nat;
  rows : list (list R)
}.

Definition nrows {R : Type} (m : matrix R) : nat := length (rows m).

Definition wf_matrix {R : Type} (m : matrix R) : Prop :=
  Forall (fun r => length r = ncols m) (rows m).

(** What [np.array] can hand back to [register]: a one-dimensional numeric
    array, a two-dimensional one, or (older numpy, ragged input) a
    one-dimensional array of objects. *)
Inductive ndarray (R : Type) : Type :=
| Arr1 (v : list R)
| Arr2 (m : matrix R)
| ArrObj (items : list (list R)).

Arguments Arr1 {R} v.
Arguments Arr2 {R} m.
Arguments ArrObj {R} items.

(** numpy >= 1.24 refuses a ragged nested sequence; before, it built an
    object array. *)
Inductive ragged_policy : Type := LegacyObjectArray | RaggedValueError.

(** ** Meshes *)

(** [AmpObject.vert] is a [(V, 3)] array; [faces] is carried along. *)
Record AmpObject (R : Type) : Type := {
  vert : list (R * R * R);
  faces : list (nat * nat * nat)
}.

(** ** The [pca] object *)

Record pca_obj (R : Type) : Type := {
  shapes : list (AmpObject R);
  baseline : option (AmpObject R);
  registered : option (list (AmpObject R));
  X : option (ndarray R);
  pca_mean : option (list R);
  pca_U : option (matrix R);
  pca_S : option (list R);
  pca_V : option (matrix R);
  pc_weights : option (matrix R);
  pc_stdevs : option (list R)
}.

(** [pca.__init__] *)
Definition init (R : Type) : pca_obj R := {|
  shapes := [];
  baseline := None;
  registered := None;
  X := None;
  pca_mean := None;
  pca_U := None;
  pca_S := None;
  pca_V := None;
  pc_weights := None;
  pc_stdevs := None
|}.

Section Setters.
Context {R : Type}.

Definition set_shapes (v : list (AmpObject R)) (s : pca_obj R) : pca_obj R :=
  {| shapes := v; baseline := baseline s; registered := registered s;
     X := X s; pca_mean := pca_mean s; pca_U := pca_U s; pca_S := pca_S s;
     pca_V := pca_V s; pc_weights := pc_weights s; pc_stdevs := pc_stdevs s |}.

Definition set_baseline (v : AmpObject R) (s : pca_obj R) : pca_obj R :=
  {| shapes := shapes s; baseline := Some v; registered := registered s;
     X := X s; pca_mean := pca_mean s; pca_U := pca_U s; pca_S := pca_S s;
     pca_V := pca_V s; pc_weights := pc_weights s; pc_stdevs := pc_stdevs s |}.

Definition set_registered (v : list (AmpObject R)) (s : pca_obj R) : pca_obj R :=
  {| shapes := shapes s; baseline := baseline s; registered := Some v;
     X := X s; pca_mean := pca_mean s; pca_U := pca_U s; pca_S := pca_S s;
     pca_V := pca_V s; pc_weights := pc_weights s; pc_stdevs := pc_stdevs s |}.

Definition set_X (v : ndarray R) (s : pca_obj R) : pca_obj R :=
  {| shapes := shapes s; baseline := baseline s; registered := registered s;
     X := Some v; pca_mean := pca_mean s; pca_U := pca_U s; pca_S := pca_S s;
     pca_V := pca_V s; pc_weights := pc_weights s; pc_stdevs := pc_stdevs s |}.

Definition set_pca_mean (v : list R) (s : pca_obj R) : pca_obj R :=
  {| shapes := shapes s; baseline := baseline s; registered := registered s;
     X := X s; pca_mean := Some v; pca_U := pca_U s; pca_S := pca_S s;
     pca_V := pca_V s; pc_weights := pc_weights s; pc_stdevs := pc_stdevs s |}.

(** The tuple assignment of line 51 binds the three attributes at once. *)
Definition set_svd (u : matrix R) (sv : list R) (v : matrix R)
    (s : pca_obj R) : pca_obj R :=
  {| shapes := shapes s; baseline := baseline s; registered := registered s;
     X := X s; pca_mean := pca_mean s; pca_U := Some u; pca_S := Some sv;
     pca_V := Some v; pc_weights := pc_weights s; pc_stdevs := pc_stdevs s |}.

Definition set_pc_weights (v : matrix R) (s : pca_obj R) : pca_obj R :=
  {| shapes := shapes s; baseline := baseline s; registered := registered s;
     X := X s; pca_mean := pca_mean s; pca_U := pca_U s; pca_S := pca_S s;
     pca_V := pca_V s; pc_weights := Some v; pc_stdevs := pc_stdevs s |}.

Definition set_pc_stdevs (v : list R) (s : pca_obj R) : pca_obj R :=
  {| shapes := shapes s; baseline := baseline s; registered := registered s;
     X := X s; pca_mean := pca_mean s; pca_U := pca_U s; pca_S := pca_S s;
     pca_V := pca_V s; pc_weights := pc_weights s; pc_stdevs := Some v |}.
End Setters.

(** ** Methods as state transformers that may raise *)

Definition M (R A : Type) : Type := pca_obj R -> outcome A * pca_obj R.

Section Monad.
Context {R : Type}.

Definition ret {A : Type} (a : A) : M R A := fun s => (Ok a, s).

Definition raise {A : Type} (e : pyexn) : M R A := fun s => (Raise e, s).

Definition bind {A B : Type} (m : M R A) (f : A -> M R B) : M R B :=
  fun s =>
    match m s with
    | (Ok a, s') => f a s'
    | (Raise e, s') => (Raise e, s')
    end.

Definition lift {A : Type} (o : outcome A) : M R A := fun s => (o, s).

(** [self.name], which raises when the attribute was never assigned. *)
Definition getattr {A : Type} (name : string) (proj : pca_obj R -> option A)
  : M R A :=
  fun s =>
    match proj s with
    | Some a => (Ok a, s)
    | None => (Raise (AttributeError name), s)
    end.

(** An attribute that [__init__] always binds. *)
Definition gets {A : Type} (proj : pca_obj R -> A) : M R A :=
  fun s => (Ok (proj s), s).

(** [self.name = v] *)
Definition setattr (upd : pca_obj R -> pca_obj R) : M R unit :=
  fun s => (Ok tt, upd s).

End Monad.

Notation "x <- m ;; k" := (bind m (fun x => k))
  (at level 61, m at next level, right associativity).
Notation "m ;;; k" := (bind m (fun _ => k))
  (at level 61, right associativity).

(** ** The numpy operations the class calls *)

Fixpoint map2 {A B C : Type} (f : A -> B -> C) (xs : list A) (ys : list B)
  : list C :=
  match xs, ys with
  | x :: xs', y :: ys' => f x y :: map2 f xs' ys'
  | _, _ => []
  end.

Section Numpy.
Context {R : Type} {N : Numeric R}.

(** A reduction by [+] over one axis. *)
Definition vsum (l : list R) : R := fold_left radd l rzero.

Definition column (j : nat) (m : matrix R) : list R :=
  map (fun r => nth j r rzero) (rows m).

(** [m.T] of a two-dimensional array *)
Definition transpose (m : matrix R) : matrix R :=
  Mat (nrows m) (map (fun j => column j m) (seq 0 (ncols m))).

(** [a.T]; a one-dimensional array is its own transpose. *)
Definition np_T (a : ndarray R) : ndarray R :=
  match a with
  | Arr2 m => Arr2 (transpose m)
  | _ => a
  end.

(** [vert.flatten()] of a [(V, 3)] array, in C order. *)
Definition flatten (v : list (R * R * R)) : list R :=
  flat_map (fun p => let '(x, y, z) := p in [x; y; z]) v.

Definition same_length (x : list R) (rest : list (list R)) : bool :=
  forallb (fun y => length y =? length x) rest.

(** [np.array(xs)] of a list of one-dimensional arrays. *)
Definition np_array (policy : ragged_policy) (xs : list (list R))
  : outcome (ndarray R) :=
  match xs with
  | [] => Ok (Arr1 [])
  | x :: rest =>
      if same_length x rest then Ok (Arr2 (Mat (length x) xs))
      else
        match policy with
        | LegacyObjectArray => Ok (ArrObj xs)
        | RaggedValueError =>
            Raise (ValueError "setting an array element with a sequence")
        end
  end.

(** Reducing over [axis=1] needs a second axis. *)
Definition axis1 (a : ndarray R) : outcome (matrix R) :=
  match a with
  | Arr2 m => Ok m
  | Arr1 _ | ArrObj _ => Raise (AxisError 1 1)
  end.

(** [m.mean(axis=1)]: the sum of each row over the number of columns. *)
Definition mean_axis1 (m : matrix R) : list R :=
  map (fun r => rdiv (vsum r) (of_count (ncols m))) (rows m).

(** [m - mu[:, None]] *)
Definition sub_column (m : matrix R) (mu : list R) : matrix R :=
  Mat (ncols m) (map2 (fun r c => map (fun x => rsub x c) r) (rows m) mu).

(** [np.diag(v)] *)
Definition np_diag (v : list R) : matrix R :=
  Mat (length v)
      (map (fun i =>
              map (fun j => if i =? j then nth i v rzero else rzero)
                  (seq 0 (length v)))
           (seq 0 (length v))).

(** [np.dot(a, b)] of two-dimensional arrays. *)
Definition np_dot (a b : matrix R) : outcome (matrix R) :=
  if ncols a =? nrows b then
    Ok (Mat (ncols b)
            (map (fun ra =>
                    map (fun j => vsum (map2 rmul ra (column j b)))
                        (seq 0 (ncols b)))
                 (rows a)))
  else Raise (ValueError "shapes not aligned").

(** The standard deviation of one row as [np.std] computes it with its
    default [ddof=0]: centre on the mean, square, sum, divide by the
    number of entries, take the root. *)
Definition std_row (n : nat) (r : list R) : R :=
  let mu := rdiv (vsum r) (of_count n) in
  let x := map (fun w => rsub w mu) r in
  rsqrt (rdiv (vsum (map (fun d => rmul d d) x)) (of_count n)).

(** [np.std(m, axis=1)] *)
Definition np_std_axis1 (m : matrix R) : list R :=
  map (std_row (ncols m)) (rows m).

(** [m * v] for [m] of shape [(D, K)] and [v] of shape [(L,)], under
    numpy's broadcasting: the trailing axes must agree or one of them
    must be 1. *)
Definition np_mul_bcast (m : matrix R) (v : list R) : outcome (matrix R) :=
  if ncols m =? length v then
    Ok (Mat (ncols m) (map (fun r => map2 rmul r v) (rows m)))
  else if length v =? 1 then
    Ok (Mat (ncols m)
            (map (fun r => map (fun u => rmul u (hd rzero v)) r) (rows m)))
  else if ncols m =? 1 then
    Ok (Mat (length v)
            (map (fun r => map (fun c => rmul (hd rzero r) c) v) (rows m)))
  else Raise (ValueError "operands could not be broadcast together").

(** [m.sum(axis=1)] *)
Definition np_sum_axis1 (m : matrix R) : list R := map vsum (rows m).

(** [a + b] for one-dimensional arrays, under broadcasting. *)
Definition np_add_bcast (a b : list R) : outcome (list R) :=
  if length a =? length b then Ok (map2 radd a b)
  else if length b =? 1 then Ok (map (fun x => radd x (hd rzero b)) a)
  else if length a =? 1 then Ok (map (fun y => radd (hd rzero a) y) b)
  else Raise (ValueError "operands could not be broadcast together").

End Numpy.

(** ** The class [pca] *)

(** [f.endswith(suffix)] *)
Definition endswith (f suffix : string) : bool :=
  (String.length suffix <=? String.length f)
  && String.eqb
       (substring (String.length f - String.length suffix)
                  (String.length suffix) f)
       suffix.

Section Methods.
Context {R : Type} {N : Numeric R}.

(** [np.linalg.svd(a, full_matrices=False)]; [None] when it raises
    [LinAlgError]. *)
Variable svd : matrix R -> option (matrix R * list R * matrix R).

(** [registration(baseline, target, fixBrim, steps).reg] *)
Variable registration :
  AmpObject R -> AmpObject R -> bool -> nat -> outcome (AmpObject R).

Variable policy : ragged_policy.

(** The mesh loader [AmpObject(path, 'limb', unify=unify)]. *)
Variable load : string -> bool -> AmpObject R.

Definition setBaseline (baseline : AmpObject R) : M R unit :=
  setattr (set_baseline baseline).

(** [importFolder], given the directory listing [os.listdir(path)]. *)
Definition importFolder (listing : list string) (path : string)
  (unify : bool) : M R unit :=
  setattr
    (set_shapes
       (map (fun f => load (path ++ f)%string unify)
            (filter (fun f => endswith f ".stl") listing))).

(** [sliceFiles]; [planarTrim] is the collaborator's trimming. *)
Definition sliceFiles (planarTrim : R -> AmpObject R -> AmpObject R)
  (height : R) : M R unit :=
  ts <- gets (@shapes R) ;;
  setattr (set_shapes (map (planarTrim height) ts)).

(** The comprehension of line 42: [self.baseline] is read once per
    shape. *)
Fixpoint register_each (ts : list (AmpObject R)) : M R (list (AmpObject R)) :=
  match ts with
  | [] => ret []
  | t :: ts' =>
      b <- getattr "baseline" (@baseline R) ;;
      r <- lift (registration b t true 10) ;;
      rs <- register_each ts' ;;
      ret (r :: rs)
  end.

(** Line 43 *)
Definition build_X (regs : list (AmpObject R)) : outcome (ndarray R) :=
  obind (np_array policy (map (fun r => flatten (vert r)) regs))
        (fun a => Ok (np_T a)).

Definition register : M R unit :=
  ts <- gets (@shapes R) ;;
  regs <- register_each ts ;;
  setattr (set_registered regs) ;;;
  regs' <- getattr "registered" (@registered R) ;;
  x <- lift (build_X regs') ;;
  setattr (set_X x).

Definition np_linalg_svd (a : matrix R)
  : outcome (matrix R * list R * matrix R) :=
  match svd a with
  | Some usv => Ok usv
  | None => Raise LinAlgError
  end.

Definition pca : M R unit :=
  x <- getattr "X" (@X R) ;;
  m <- lift (axis1 x) ;;
  setattr (set_pca_mean (mean_axis1 m)) ;;;
  mu <- getattr "pca_mean" (@pca_mean R) ;;
  let X_meanC := sub_column m mu in
  usv <- lift (np_linalg_svd X_meanC) ;;
  (let '(u, sv, v) := usv in setattr (set_svd u sv v)) ;;;
  sv <- getattr "pca_S" (@pca_S R) ;;
  v <- getattr "pca_V" (@pca_V R) ;;
  w <- lift (np_dot (np_diag sv) v) ;;
  setattr (set_pc_weights w) ;;;
  w' <- getattr "pc_weights" (@pc_weights R) ;;
  setattr (set_pc_stdevs (np_std_axis1 w')).

(** The local variable [sf] of [newShape] is bound by the two recognised
    branches only; [None] is the unbound local. *)
Definition newShape (sfs : list R) (scale : string) : M R (list R) :=
  sf <- (if String.eqb scale "eigs" then
           u <- getattr "pca_U" (@pca_U R) ;;
           t <- lift (np_mul_bcast u sfs) ;;
           ret (Some (np_sum_axis1 t))
         else if String.eqb scale "std" then
           u <- getattr "pca_U" (@pca_U R) ;;
           sd <- getattr "pc_stdevs" (@pc_stdevs R) ;;
           t <- lift (np_mul_bcast u sd) ;;
           t' <- lift (np_mul_bcast t sfs) ;;
           ret (Some (np_sum_axis1 t'))
         else ret None) ;;
  mu <- getattr "pca_mean" (@pca_mean R) ;;
  sf' <- match sf with
         | Some a => ret a
         | None => raise (UnboundLocalError "sf")
         end ;;
  lift (np_add_bcast mu sf').

End Methods.

(** ** The shape model of the specification *)

(** The derived state a successful fit leaves behind. *)
Record ShapeModel (R : Type) : Type := {
  mean : list R;
  basis : matrix R;
  singularValues : list R;
  scores : matrix R;
  modeStdDevs : list R
}.

Section Model.
Context {R : Type} {N : Numeric R}.

Definition model_of (s : pca_obj R) : option (ShapeModel R) :=
  match pca_mean s, pca_U s, pca_S s, pc_weights s, pc_stdevs s with
  | Some mu, Some u, Some sv, Some w, Some sd =>
      Some {| mean := mu; basis := u; singularValues := sv;
              scores := w; modeStdDevs := sd |}
  | _, _, _, _, _ => None
  end.

(** A model over [D] coordinates with [K] modes. *)
Definition wf_model (D K : nat) (mdl : ShapeModel R) : Prop :=
  length (mean mdl) = D /\
  nrows (basis mdl) = D /\
  ncols (basis mdl) = K /\
  wf_matrix (basis mdl) /\
  length (modeStdDevs mdl) = K.

Definition vec_add (a b : list R) : list R := map2 radd a b.

Definition scale_vec (c : R) (v : list R) : list R :=
  map (fun u => rmul u c) v.

(** The columns [basis[:,0]], ..., [basis[:,K-1]]. *)
Definition basis_columns (u : matrix R) : list (list R) :=
  map (fun k => column k u) (seq 0 (ncols u)).

(** The first [n] columns of a list of rows. *)
Definition cols_of (n : nat) (rws : list (list R)) : list (list R) :=
  map (fun k => map (fun r => nth k r rzero) rws) (seq 0 n).

(** [Σ_k cols[k] · coeffs[k]], a sum of [D]-vectors. *)
Definition mode_sum (D : nat) (cols : list (list R)) (coeffs : list R)
  : list R :=
  fold_left (fun acc p => vec_add acc (scale_vec (snd p) (fst p)))
            (combine cols coeffs) (repeat rzero D).

(** [mean + Σ_k basis[:,k] · coefficients[k]] *)
Definition synthesize_raw (mdl : ShapeModel R) (coeffs : list R) : list R :=
  vec_add (mean mdl)
          (mode_sum (nrows (basis mdl)) (basis_columns (basis mdl)) coeffs).

(** [mean + Σ_k basis[:,k] · modeStdDevs[k] · coefficients[k]] *)
Definition synthesize_std (mdl : ShapeModel R) (coeffs : list R) : list R :=
  vec_add (mean mdl)
          (mode_sum (nrows (basis mdl))
                    (map2 (fun col sd => scale_vec sd col)
                          (basis_columns (basis mdl)) (modeStdDevs mdl))
                    coeffs).

(** The standard deviation of a sample with the divisor [N] (no Bessel
    correction). *)
Definition population_std (xs : list R) : R :=
  let n := of_count (length xs) in
  let mu := rdiv (vsum xs) n in
  rsqrt (rdiv (vsum (map (fun x => rmul (rsub x mu) (rsub x mu)) xs)) n).

(** A product with zero that the running sum absorbs. *)
Definition absorbed : R -> Prop :=
  fun u => radd rzero (rmul u rzero) = rzero.

(** The factors that meet the coefficients: the basis entries in the
    'eigs' mode, the basis entries times their mode's standard deviation
    in the 'std' mode. *)
Definition mode_factors (scale : string) (mdl : ShapeModel R)
  : list (list R) :=
  if String.eqb scale "std"
  then map (fun r => map2 rmul r (modeStdDevs mdl)) (rows (basis mdl))
  else rows (basis mdl).

(** [coefficients] padded with zeros at the high-index end. *)
Definition zero_pad (K : nat) (coeffs : list R) : list R :=
  coeffs ++ repeat rzero (K - length coeffs).

(** What broadcasting makes of a coefficient vector of any length. *)
Definition broadcast_raw (mdl : ShapeModel R) (c : list R)
  : outcome (list R) :=
  let K := ncols (basis mdl) in
  if length c =? K then Ok (synthesize_raw mdl c)
  else if length c =? 1 then
    Ok (synthesize_raw mdl (repeat (hd rzero c) K))
  else if K =? 1 then
    Ok (vec_add (mean mdl)
          (mode_sum (nrows (basis mdl))
                    (repeat (column 0 (basis mdl)) (length c)) c))
  else Raise (ValueError "operands could not be broadcast together").

Definition broadcast_std (mdl : ShapeModel R) (c : list R)
  : outcome (list R) :=
  let K := ncols (basis mdl) in
  if length c =? K then Ok (synthesize_std mdl c)
  else if length c =? 1 then
    Ok (synthesize_std mdl (repeat (hd rzero c) K))
  else if K =? 1 then
    Ok (vec_add (mean mdl)
          (mode_sum (nrows (basis mdl))
                    (repeat (scale_vec (hd rzero (modeStdDevs mdl))
                                       (column 0 (basis mdl)))
                            (length c)) c))
  else Raise (ValueError "operands could not be broadcast together").

End Model.

(** ** Fitting *)

Section FitModel.
Context {R : Type} {N : Numeric R}.

(** The average of one row of the data matrix. *)
Definition row_average (xs : list R) : R :=
  rdiv (vsum xs) (of_count (length xs)).

(** [m[i, j]] *)
Definition entry (m : matrix R) (i j : nat) : R :=
  nth j (nth i (rows m) []) rzero.

(** Coordinate [j] of a vertex: 0 is x, 1 is y, 2 is z. *)
Definition coord (j : nat) (p : R * R * R) : R :=
  let '(x, y, z) := p in
  match j with
  | 0 => x
  | 1 => y
  | _ => z
  end.

Definition has_nonfinite (m : matrix R) : bool :=
  existsb (fun r => existsb (fun x => negb (is_finite x)) r) (rows m).

(** The shapes of a thin decomposition: for an input of shape [(D, N)]
    and [K = min D N], [U] is [(D, K)], [S] is [(K,)], [V] is [(K, N)]. *)
Definition thin_svd (svd : matrix R -> option (matrix R * list R * matrix R))
  : Prop :=
  forall a u sv v,
    svd a = Some (u, sv, v) ->
    nrows u = nrows a /\ ncols u = Nat.min (nrows a) (ncols a) /\
    wf_matrix u /\
    length sv = Nat.min (nrows a) (ncols a) /\
    nrows v = Nat.min (nrows a) (ncols a) /\ ncols v = ncols a /\
    wf_matrix v.

(** The state after line 49 of [pca]. *)
Definition after_mean (m : matrix R) (s : pca_obj R) : pca_obj R :=
  set_pca_mean (mean_axis1 m) s.

(** The state after a complete run of [pca]. *)
Definition after_fit (m u : matrix R) (sv : list R) (v w : matrix R)
  (s : pca_obj R) : pca_obj R :=
  set_pc_stdevs (np_std_axis1 w)
    (set_pc_weights w (set_svd u sv v (after_mean m s))).

(** No basis yet: the attributes line 51 onwards would bind. *)
Definition no_basis (s : pca_obj R) : Prop :=
  pca_U s = None /\ pca_S s = None /\ pca_V s = None /\
  pc_weights s = None /\ pc_stdevs s = None.

End FitModel.

(** ** Sample objects over the integers *)

(** A shape-correct stand-in for the decomposition: all-zero factors of
    the thin shapes. *)
Definition zero_svd (a : matrix Z) : option (matrix Z * list Z * matrix Z) :=
  let K := Nat.min (nrows a) (ncols a) in
  Some (Mat K (repeat (repeat 0%Z K) (nrows a)),
        repeat 0%Z K,
        Mat (ncols a) (repeat (repeat 0%Z (ncols a)) K)).

(** A decomposition routine that always raises. *)
Definition failing_svd {R : Type} (a : matrix R)
  : option (matrix R * list R * matrix R) := None.

(** A fixed answer of the shapes for a [(2, 3)] input. *)
Definition demo_svd (a : matrix Z) : option (matrix Z * list Z * matrix Z) :=
  Some (Mat 2 [[1; 2]; [3; 4]]%Z,
        [3; 2]%Z,
        Mat 3 [[1; 0; 2]; [0; 1; 5]]%Z).

Definition demo_data : pca_obj Z :=
  set_X (Arr2 (Mat 3 [[1; 2; 3]; [4; 4; 4]]%Z)) (init Z).

Definition demo_fitted : pca_obj Z := snd (pca demo_svd demo_data).

Definition demo_model : ShapeModel Z := {|
  mean := [2; 4]%Z;
  basis := Mat 2 [[1; 2]; [3; 4]]%Z;
  singularValues := [3; 2]%Z;
  scores := Mat 3 [[3; 0; 6]; [0; 2; 10]]%Z;
  modeStdDevs := [2; 4]%Z
|}.

(** A model with three modes over one coordinate. *)
Definition three_mode_obj : pca_obj Z := {|
  shapes := [];
  baseline := None;
  registered := None;
  X := None;
  pca_mean := Some [0]%Z;
  pca_U := Some (Mat 3 [[1; 1; 1]]%Z);
  pca_S := Some [3; 2; 1]%Z;
  pca_V := Some (Mat 3 [[1; 0; 0]; [0; 1; 0]; [0; 0; 1]]%Z);
  pc_weights := Some (Mat 3 [[3; 0; 0]; [0; 2; 0]; [0; 0; 1]]%Z);
  pc_stdevs := Some [1; 1; 1]%Z
|}.

Definition three_mode_model : ShapeModel Z := {|
  mean := [0]%Z;
  basis := Mat 3 [[1; 1; 1]]%Z;
  singularValues := [3; 2; 1]%Z;
  scores := Mat 3 [[3; 0; 0]; [0; 2; 0]; [0; 0; 1]]%Z;
  modeStdDevs := [1; 1; 1]%Z
|}.

(** A model with a single mode over two coordinates. *)
Definition one_mode_obj : pca_obj Z := {|
  shapes := [];
  baseline := None;
  registered := None;
  X := None;
  pca_mean := Some [10; 20]%Z;
  pca_U := Some (Mat 1 [[1]; [2]]%Z);
  pca_S := Some [5]%Z;
  pca_V := Some (Mat 1 [[1]]%Z);
  pc_weights := Some (Mat 1 [[5]]%Z);
  pc_stdevs := Some [3]%Z
|}.

Definition one_mode_model : ShapeModel Z := {|
  mean := [10; 20]%Z;
  basis := Mat 1 [[1]; [2]]%Z;
  singularValues := [5]%Z;
  scores := Mat 1 [[5]]%Z;
  modeStdDevs := [3]%Z
|}.

(** ** Sample corpora *)

Definition empty_mesh (R : Type) : AmpObject R :=
  {| vert := []; faces := [] |}.

Definition mesh_of {R : Type} (v : list (R * R * R)) : AmpObject R :=
  {| vert := v; faces := [] |}.

(** A registration that hands the target back unchanged. *)
Definition identity_registration {R : Type} (b t : AmpObject R)
  (fixBrim : bool) (steps : nat) : outcome (AmpObject R) := Ok t.

(** The three registered shapes of the end-to-end scenario. *)
Definition scenario_shapes : list (AmpObject Z) :=
  [ mesh_of [(0, 0, 0); (1, 0, 0); (0, 1, 0); (0, 0, 1)]%Z;
    mesh_of [(0, 0, 0); (2, 0, 0); (0, 1, 0); (0, 0, 1)]%Z;
    mesh_of [(0, 0, 0); (1, 0, 0); (0, 2, 0); (0, 0, 1)]%Z ].

Definition scenario_obj : pca_obj Z :=
  set_shapes scenario_shapes (set_baseline (mesh_of [(0, 0, 0); (1, 0, 0); (0, 1, 0); (0, 0, 1)]%Z) (init Z)).

(** Two shapes that disagree on the vertex count. *)
Definition ragged_obj : pca_obj Z :=
  set_shapes [ mesh_of [(0, 0, 0)]%Z; mesh_of [(0, 0, 0); (1, 0, 0)]%Z ]
             (set_baseline (mesh_of [(0, 0, 0)]%Z) (init Z)).

(** A corpus of one shape. *)
Definition single_obj : pca_obj Z :=
  set_shapes [ mesh_of [(1, 2, 3)]%Z ]
             (set_baseline (mesh_of [(0, 0, 0)]%Z) (init Z)).

(** ** The client protocol *)

(** The calls a client can make on a [pca] object. *)
Inductive call (R : Type) : Type :=
| CallSetBaseline (b : AmpObject R)
| CallImportFolder (listing : list string) (path : string) (unify : bool)
| CallSliceFiles (height : R)
| CallRegister
| CallPca
| CallNewShape (sfs : list R) (scale : string).

Arguments CallImportFolder {R} listing path unify.
Arguments CallRegister {R}.
Arguments CallPca {R}.

Section Protocol.
Context {R : Type} {N : Numeric R}.
Variable svd : matrix R -> option (matrix R * list R * matrix R).
Variable registration :
  AmpObject R -> AmpObject R -> bool -> nat -> outcome (AmpObject R).
Variable policy : ragged_policy.
Variable load : string -> bool -> AmpObject R.
Variable planarTrim : R -> AmpObject R -> AmpObject R.

Definition discard {A : Type} (r : outcome A * pca_obj R)
  : outcome unit * pca_obj R :=
  match r with
  | (Ok _, s) => (Ok tt, s)
  | (Raise e, s) => (Raise e, s)
  end.

Definition run_call (c : call R) (s : pca_obj R) : outcome unit * pca_obj R :=
  match c with
  | CallSetBaseline b => setBaseline b s
  | CallImportFolder listing path unify =>
      importFolder load listing path unify s
  | CallSliceFiles height => sliceFiles planarTrim height s
  | CallRegister => register registration policy s
  | CallPca => pca svd s
  | CallNewShape sfs scale => discard (newShape sfs scale s)
  end.

(** The objects on which no call of [pca] has returned normally. *)
Inductive never_fitted : pca_obj R -> Prop :=
| nf_init : never_fitted (init R)
| nf_call (s : pca_obj R) (c : call R) :
    never_fitted s ->
    (c = CallPca -> fst (run_call c s) <> Ok tt) ->
    never_fitted (snd (run_call c s)).

End Protocol.

(** The data of a fit attempted on a non-finite matrix, over binary64. *)
Definition nonfinite_X : matrix float :=
  Mat 2 [[PrimFloat.nan; 1%float]].

Definition previously_fitted : pca_obj float := {|
  shapes := [];
  baseline := None;
  registered := Some [];
  X := Some (Arr2 nonfinite_X);
  pca_mean := Some [5%float];
  pca_U := Some (Mat 1 [[1%float]]);
  pca_S := Some [2%float];
  pca_V := Some (Mat 2 [[1%float; 0%float]]);
  pc_weights := Some (Mat 2 [[2%float; 0%float]]);
  pc_stdevs := Some [1%float]
|}.

(** A decomposition routine that returns whatever it is given. *)
Definition constant_svd (a : matrix float)
  : option (matrix float * list float * matrix float) :=
  Some (Mat 1 [[1%float]], [0%float], Mat 2 [[0%float; 0%float]]).

(** ** Sample sessions *)

Definition demo_load (path : string) (unify : bool) : AmpObject Z :=
  mesh_of [(1, 2, 3); (4, 5, 6)]%Z.

Definition no_trim (height : Z) (t : AmpObject Z) : AmpObject Z := t.

Definition demo_run (c : call Z) (s : pca_obj Z) : outcome unit * pca_obj Z :=
  run_call failing_svd identity_registration LegacyObjectArray
           demo_load no_trim c s.

(** An object on which the only fit so far has failed. *)
Definition after_failed_fit : pca_obj Z :=
  snd (demo_run CallPca
    (snd (demo_run CallRegister
      (snd (demo_run (CallImportFolder ["a.stl"; "notes.txt"; "b.stl"] "scans/" true)
        (snd (demo_run (CallSetBaseline (mesh_of [(0, 0, 0); (1, 1, 1)]%Z))
                       (init Z)))))))).

(** The object after importing a folder without any [.stl] file. *)
Definition empty_corpus_obj : pca_obj Z :=
  snd (importFolder demo_load ["notes.txt"; "scan.ply"] "scans/" true (init Z)).

(** ** Further sample objects *)

(** A registration that refuses a mesh without vertices. *)
Definition picky_registration (b t : AmpObject Z) (fixBrim : bool)
  (steps : nat) : outcome (AmpObject Z) :=
  match vert t with
  | [] => Raise (CollaboratorError "RegistrationError")
  | _ :: _ => Ok t
  end.

Definition picky_obj : pca_obj Z :=
  set_shapes [ mesh_of [(1, 2, 3)]%Z; empty_mesh Z; mesh_of [(4, 5, 6)]%Z ]
             (set_baseline (mesh_of [(0, 0, 0)]%Z) (init Z)).

(** A corpus without a baseline. *)
Definition no_baseline_obj : pca_obj Z :=
  set_shapes [ mesh_of [(1, 2, 3)]%Z ] (init Z).

(** Factors that multiply back to the centred matrix of [recon_data]. *)
Definition recon_svd (a : matrix Z) : option (matrix Z * list Z * matrix Z) :=
  Some (Mat 2 [[1; 0]; [0; 1]]%Z,
        [1; 1]%Z,
        Mat 2 [[-1; 1]; [0; 0]]%Z).

Definition recon_data : pca_obj Z :=
  set_X (Arr2 (Mat 2 [[1; 3]; [2; 2]]%Z)) (init Z).

Definition recon_model : ShapeModel Z := {|
  mean := [2; 2]%Z;
  basis := Mat 2 [[1; 0]; [0; 1]]%Z;
  singularValues := [1; 1]%Z;
  scores := Mat 2 [[-1; 1]; [0; 0]]%Z;
  modeStdDevs := [1; 0]%Z
|}.

(** ** Sample fits over binary64 *)

(** A finite one-row matrix whose centred entries have squares beyond
    the largest binary64 number. *)
Definition overflow_X : matrix float :=
  Mat 2 [[0x1p600%float; PrimFloat.opp 0x1p600%float]].

(** The factors of [overflow_X]: the row is [sqrt 2 * 2^600] times the
    unit vector [(1, -1) / sqrt 2]. *)
Definition overflow_svd (a : matrix float)
  : option (matrix float * list float * matrix float) :=
  Some (Mat 1 [[1%float]],
        [(0x1p600 * PrimFloat.sqrt 2)%float],
        Mat 2 [[(1 / PrimFloat.sqrt 2)%float;
                PrimFloat.opp (1 / PrimFloat.sqrt 2)%float]]).

Definition overflow_data : pca_obj float :=
  set_X (Arr2 overflow_X) (init float).

Definition overflow_fitted : pca_obj float :=
  snd (pca overflow_svd overflow_data).

Definition overflow_model : ShapeModel float := {|
  mean := [0%float];
  basis := Mat 1 [[1%float]];
  singularValues := [(0x1p600 * PrimFloat.sqrt 2)%float];
  scores :=
    Mat 2 [[(0x1p600 * PrimFloat.sqrt 2 * (1 / PrimFloat.sqrt 2))%float;
            (0x1p600 * PrimFloat.sqrt 2
             * PrimFloat.opp (1 / PrimFloat.sqrt 2))%float]];
  modeStdDevs := [PrimFloat.infinity]
|}.

(** A small fit whose factors multiply back to the centred matrix. *)
Definition small_svd (a : matrix float)
  : option (matrix float * list float * matrix float) :=
  Some (Mat 2 [[PrimFloat.opp 1%float; 0%float]; [0%float; 1%float]],
        [1%float; 1%float],
        Mat 2 [[1%float; PrimFloat.opp 1%float]; [0%float; 0%float]]).

Definition small_data : pca_obj float :=
  set_X (Arr2 (Mat 2 [[1%float; 3%float]; [2%float; 2%float]])) (init float).

Definition small_fitted : pca_obj float :=
  snd (pca small_svd small_data).

Definition small_model : ShapeModel float := {|
  mean := [2%float; 2%float];
  basis := Mat 2 [[PrimFloat.opp 1%float; 0%float]; [0%float; 1%float]];
  singularValues := [1%float; 1%float];
  scores := Mat 2 [[1%float; PrimFloat.opp 1%float]; [0%float; 0%float]];
  modeStdDevs := [1%float; 0%float]
|}.

(** * Properties *)

(** ** Lists and columns *)

Section ListFacts.
Context {A B C : Type}.

Lemma map2_length (f : A -> B -> C) (xs : list A) (ys : list B) :
  length xs = length ys -> length (map2 f xs ys) = length xs.
Proof.
  revert ys; induction xs as [|x xs IH]; intros [|y ys] E; simpl in *;
    try discriminate; auto.
Qed.

Lemma map2_ext_in (f g : A -> B -> C) (xs : list A) (ys : list B) :
  (forall x y, In x xs -> In y ys -> f x y = g x y) ->
  map2 f xs ys = map2 g xs ys.
Proof.
  revert ys; induction xs as [|x xs IH]; intros [|y ys] E; simpl; auto.
  f_equal.
  - apply E; simpl; auto.
  - apply IH; intros; apply E; simpl; auto.
Qed.

End ListFacts.

Lemma map2_left {A B : Type} (xs : list A) (ys : list B) :
  length xs = length ys -> map2 (fun a _ => a) xs ys = xs.
Proof.
  revert ys; induction xs as [|x xs IH]; intros [|y ys] E; simpl in *;
    try discriminate; auto.
  f_equal; auto.
Qed.

Section Columns.
Context {R : Type} {N : Numeric R}.

Lemma basis_columns_cols_of (u : matrix R) :
  basis_columns u = cols_of (ncols u) (rows u).
Proof. reflexivity. Qed.

Lemma nth_S_tl (k : nat) (r : list R) (d : R) :
  nth (S k) r d = nth k (tl r) d.
Proof. destruct r; simpl; auto. destruct k; reflexivity. Qed.

Lemma cols_of_S (n : nat) (rws : list (list R)) :
  cols_of (S n) rws = map (hd rzero) rws :: cols_of n (map (@tl R) rws).
Proof.
  unfold cols_of. simpl. f_equal.
  - apply map_ext. intros [|x r]; reflexivity.
  - rewrite <- seq_shift, map_map. apply map_ext. intros k.
    rewrite map_map. apply map_ext. intros r. apply nth_S_tl.
Qed.

Lemma Forall_length_tl (n : nat) (rws : list (list R)) :
  Forall (fun r => length r = S n) rws ->
  Forall (fun r => length r = n) (map (@tl R) rws).
Proof.
  intros H. apply Forall_map. eapply Forall_impl; [|exact H].
  intros [|x r] E; simpl in *; congruence.
Qed.

(** One more coefficient, row by row. *)
Lemma row_step (c : R) (cs : list R) (rws : list (list R)) (acc : list R) :
  Forall (fun r => length r = S (length cs)) rws ->
  map2 (fun a r => fold_left radd (map2 rmul r cs) a)
       (vec_add acc (scale_vec c (map (hd rzero) rws)))
       (map (@tl R) rws)
  = map2 (fun a r => fold_left radd (map2 rmul r (c :: cs)) a) acc rws.
Proof.
  intros H. revert acc.
  induction H as [|r rws E _ IH]; intros [|a acc]; simpl; auto.
  destruct r as [|x r]; [discriminate|]. simpl.
  f_equal. apply IH.
Qed.

(** Summing scaled columns is the same as summing each row's products. *)
Lemma mode_sum_rows (coeffs : list R) :
  forall (rws : list (list R)) (acc : list R),
  Forall (fun r => length r = length coeffs) rws ->
  length acc = length rws ->
  fold_left (fun acc p => vec_add acc (scale_vec (snd p) (fst p)))
            (combine (cols_of (length coeffs) rws) coeffs) acc
  = map2 (fun a r => fold_left radd (map2 rmul r coeffs) a) acc rws.
Proof.
  induction coeffs as [|c cs IH]; intros rws acc H E.
  - simpl. rewrite <- (map2_left acc rws E) at 1.
    apply map2_ext_in. intros a r _ Hr.
    rewrite Forall_forall in H. apply H in Hr.
    destruct r; [reflexivity|discriminate].
  - simpl length. rewrite cols_of_S. simpl.
    rewrite IH.
    + apply row_step. exact H.
    + apply Forall_length_tl. exact H.
    + unfold vec_add, scale_vec. rewrite map2_length.
      * rewrite length_map. exact E.
      * rewrite !length_map. exact E.
Qed.

(** Scaling the columns by [sd] is multiplying every row by [sd]. *)
Lemma cols_of_scaled (sd : list R) :
  forall rws : list (list R),
  Forall (fun r => length r = length sd) rws ->
  cols_of (length sd) (map (fun r => map2 rmul r sd) rws)
  = map2 (fun col s => scale_vec s col) (cols_of (length sd) rws) sd.
Proof.
  induction sd as [|s sd IH]; intros rws H.
  - reflexivity.
  - simpl length. rewrite !cols_of_S. simpl. f_equal.
    + unfold scale_vec. rewrite !map_map.
      apply map_ext_in. intros r Hr.
      rewrite Forall_forall in H. apply H in Hr.
      destruct r; [discriminate|reflexivity].
    + rewrite <- IH by (apply Forall_length_tl; exact H).
      f_equal. rewrite !map_map.
      apply map_ext_in. intros r Hr.
      rewrite Forall_forall in H. apply H in Hr.
      destruct r; [discriminate|reflexivity].
Qed.

Lemma map2_repeat_fold (g : list R -> list R) (D : nat)
  (rws : list (list R)) :
  length rws = D ->
  map2 (fun a r => fold_left radd (g r) a) (repeat rzero D) rws
  = map (fun r => vsum (g r)) rws.
Proof.
  intros <-. induction rws; simpl; f_equal; auto.
Qed.

End Columns.

(** ** Synthesis on a fitted model *)

Section Synthesis.
Context {R : Type} {N : Numeric R}.

Lemma model_of_attrs (s : pca_obj R) (mdl : ShapeModel R) :
  model_of s = Some mdl ->
  pca_mean s = Some (mean mdl) /\
  pca_U s = Some (basis mdl) /\
  pca_S s = Some (singularValues mdl) /\
  pc_weights s = Some (scores mdl) /\
  pc_stdevs s = Some (modeStdDevs mdl).
Proof.
  unfold model_of.
  destruct (pca_mean s), (pca_U s), (pca_S s), (pc_weights s), (pc_stdevs s);
    try discriminate.
  intros [= <-]. simpl. repeat split.
Qed.

(** [newShape] in the two recognised modes, as the array expression it
    evaluates. *)
Lemma newShape_eigs_expr (s : pca_obj R) (u : matrix R) (mu c : list R) :
  pca_U s = Some u -> pca_mean s = Some mu ->
  newShape c "eigs" s
  = (obind (np_mul_bcast u c)
           (fun t => np_add_bcast mu (np_sum_axis1 t)), s).
Proof.
  intros HU Hm. unfold newShape, bind, getattr, lift, ret. simpl.
  rewrite HU. destruct (np_mul_bcast u c); simpl; [|reflexivity].
  rewrite Hm. reflexivity.
Qed.

Lemma newShape_std_expr (s : pca_obj R) (u : matrix R) (mu sd c : list R) :
  pca_U s = Some u -> pca_mean s = Some mu -> pc_stdevs s = Some sd ->
  newShape c "std" s
  = (obind (np_mul_bcast u sd)
           (fun t => obind (np_mul_bcast t c)
                           (fun t' => np_add_bcast mu (np_sum_axis1 t'))), s).
Proof.
  intros HU Hm Hsd. unfold newShape, bind, getattr, lift, ret. simpl.
  rewrite HU, Hsd. destruct (np_mul_bcast u sd) as [t|]; simpl; [|reflexivity].
  destruct (np_mul_bcast t c); simpl; [|reflexivity].
  rewrite Hm. reflexivity.
Qed.

Lemma np_mul_bcast_same (u : matrix R) (c : list R) :
  ncols u = length c ->
  np_mul_bcast u c = Ok (Mat (ncols u) (map (fun r => map2 rmul r c) (rows u))).
Proof.
  intros E. unfold np_mul_bcast. rewrite (proj2 (Nat.eqb_eq _ _) E).
  reflexivity.
Qed.

Lemma np_add_bcast_same (a b : list R) :
  length a = length b -> np_add_bcast a b = Ok (vec_add a b).
Proof.
  intros E. unfold np_add_bcast. rewrite (proj2 (Nat.eqb_eq _ _) E).
  reflexivity.
Qed.

Lemma wf_scaled_rows (u : matrix R) (sd : list R) :
  wf_matrix u -> ncols u = length sd ->
  Forall (fun r => length r = length sd)
         (map (fun r => map2 rmul r sd) (rows u)).
Proof.
  intros W E. apply Forall_map. eapply Forall_impl; [|exact W].
  intros r Hr. simpl in Hr. rewrite map2_length; congruence.
Qed.

(** Row sums of the broadcast product against the sum of scaled
    columns. *)
Lemma row_sums_mode_sum (rws : list (list R)) (c : list R) :
  Forall (fun r => length r = length c) rws ->
  map vsum (map (fun r => map2 rmul r c) rws)
  = mode_sum (length rws) (cols_of (length c) rws) c.
Proof.
  intros W. unfold mode_sum.
  rewrite mode_sum_rows by (auto; apply repeat_length).
  rewrite map2_repeat_fold by reflexivity.
  apply map_map.
Qed.

Lemma raw_expr_spec (mdl : ShapeModel R) (D K : nat) (c : list R) :
  wf_model D K mdl -> length c = K ->
  obind (np_mul_bcast (basis mdl) c)
        (fun t => np_add_bcast (mean mdl) (np_sum_axis1 t))
  = Ok (synthesize_raw mdl c).
Proof.
  intros (Hm & Hr & Hc & W & Hsd) E.
  rewrite np_mul_bcast_same by congruence. simpl.
  unfold np_sum_axis1. simpl.
  rewrite np_add_bcast_same
    by (rewrite !length_map; unfold nrows in Hr; congruence).
  unfold synthesize_raw. rewrite basis_columns_cols_of.
  rewrite row_sums_mode_sum by (unfold wf_matrix in W; rewrite Hc, <- E in W; exact W).
  unfold nrows. rewrite Hc, E. reflexivity.
Qed.

Lemma std_expr_spec (mdl : ShapeModel R) (D K : nat) (c : list R) :
  wf_model D K mdl -> length c = K ->
  obind (np_mul_bcast (basis mdl) (modeStdDevs mdl))
        (fun t => obind (np_mul_bcast t c)
                        (fun t' => np_add_bcast (mean mdl) (np_sum_axis1 t')))
  = Ok (synthesize_std mdl c).
Proof.
  intros (Hm & Hr & Hc & W & Hsd) E.
  rewrite np_mul_bcast_same by congruence. simpl.
  rewrite np_mul_bcast_same by (simpl; congruence). simpl.
  unfold np_sum_axis1. simpl.
  rewrite np_add_bcast_same
    by (rewrite !length_map; unfold nrows in Hr; congruence).
  unfold synthesize_std. rewrite basis_columns_cols_of.
  assert (W' : Forall (fun r => length r = length (modeStdDevs mdl))
                      (rows (basis mdl)))
    by (unfold wf_matrix in W; rewrite Hc, <- Hsd in W; exact W).
  rewrite Hc, <- Hsd, <- cols_of_scaled by exact W'.
  assert (EL : length (modeStdDevs mdl) = length c) by congruence.
  rewrite EL.
  rewrite row_sums_mode_sum.
  - unfold nrows. rewrite !length_map. reflexivity.
  - rewrite <- EL. apply wf_scaled_rows; [exact W | congruence].
Qed.

End Synthesis.

Section Fit.
Context {R : Type} {N : Numeric R}.
Variable svd : matrix R -> option (matrix R * list R * matrix R).

Lemma pca_unbound_X (s : pca_obj R) :
  X s = None -> pca svd s = (Raise (AttributeError "X"), s).
Proof. intros H. unfold pca, bind, getattr. rewrite H. reflexivity. Qed.

Lemma pca_one_dimensional (s : pca_obj R) (a : ndarray R) :
  X s = Some a -> (forall m, a <> Arr2 m) ->
  pca svd s = (Raise (AxisError 1 1), s).
Proof.
  intros H Ha. unfold pca, bind, getattr, lift. rewrite H.
  destruct a as [v|m|items]; simpl; try reflexivity.
  exfalso. apply (Ha m). reflexivity.
Qed.

(** [pca] on a two-dimensional [X], by what the decomposition does. *)
Lemma pca_two_dimensional (s : pca_obj R) (m : matrix R) :
  X s = Some (Arr2 m) ->
  pca svd s =
  match svd (sub_column m (mean_axis1 m)) with
  | None => (Raise LinAlgError, after_mean m s)
  | Some (u, sv, v) =>
      match np_dot (np_diag sv) v with
      | Ok w => (Ok tt, after_fit m u sv v w s)
      | Raise e => (Raise e, set_svd u sv v (after_mean m s))
      end
  end.
Proof.
  intros H. unfold pca, bind, getattr, lift, setattr, np_linalg_svd.
  rewrite H. simpl.
  destruct (svd (sub_column m (mean_axis1 m))) as [[[u sv] v]|]; simpl;
    [|reflexivity].
  destruct (np_dot (np_diag sv) v) as [w|e]; reflexivity.
Qed.

(** A successful [pca] went through every line. *)
Lemma pca_ok_inv (s s' : pca_obj R) :
  pca svd s = (Ok tt, s') ->
  exists m u sv v w,
    X s = Some (Arr2 m) /\
    svd (sub_column m (mean_axis1 m)) = Some (u, sv, v) /\
    np_dot (np_diag sv) v = Ok w /\
    s' = after_fit m u sv v w s.
Proof.
  intros H. destruct (X s) as [a|] eqn:HX.
  - destruct a as [x|m|items].
    + rewrite (pca_one_dimensional s HX) in H by discriminate. discriminate.
    + rewrite (pca_two_dimensional s HX) in H.
      destruct (svd (sub_column m (mean_axis1 m))) as [[[u sv] v]|] eqn:Hs;
        [|discriminate].
      destruct (np_dot (np_diag sv) v) as [w|e] eqn:Hd; [|discriminate].
      injection H as <-. exists m, u, sv, v, w. auto.
    + rewrite (pca_one_dimensional s HX) in H by discriminate. discriminate.
  - rewrite (pca_unbound_X s HX) in H. discriminate.
Qed.

Lemma np_dot_wf (a b : matrix R) (w : matrix R) :
  np_dot a b = Ok w -> wf_matrix w /\ ncols w = ncols b /\ nrows w = nrows a.
Proof.
  unfold np_dot. destruct (ncols a =? nrows b); [|discriminate].
  intros [= <-]. unfold wf_matrix, nrows. simpl. repeat split.
  - apply Forall_map, Forall_forall. intros r _.
    rewrite length_map, length_seq. reflexivity.
  - apply length_map.
Qed.

(** On a well-formed array [np.std] along axis 1 is the [N]-divisor
    standard deviation of each row. *)
Lemma np_std_axis1_population (w : matrix R) :
  wf_matrix w -> np_std_axis1 w = map population_std (rows w).
Proof.
  intros W. unfold np_std_axis1. apply map_ext_in. intros r Hr.
  unfold wf_matrix in W. rewrite Forall_forall in W.
  rewrite <- (W r Hr). unfold std_row, population_std.
  rewrite map_map. reflexivity.
Qed.

Lemma mean_axis1_row_average (m : matrix R) :
  wf_matrix m -> mean_axis1 m = map row_average (rows m).
Proof.
  intros W. unfold mean_axis1. apply map_ext_in. intros r Hr.
  unfold wf_matrix in W. rewrite Forall_forall in W.
  rewrite <- (W r Hr). reflexivity.
Qed.

End Fit.

Section ZeroCoefficients.
Context {R : Type} {N : Numeric R}.

Lemma zero_products (r : list R) :
  Forall absorbed r ->
  forall n, vsum (map2 rmul r (repeat rzero n)) = rzero.
Proof.
  unfold vsum. induction 1 as [|x r Hx _ IH]; intros [|n]; simpl; auto.
  rewrite Hx. apply IH.
Qed.

Lemma vec_add_zero_rows (a : list R) (rws : list (list R)) (n : nat) :
  length a = length rws ->
  Forall (fun m => radd m rzero = m) a ->
  Forall (Forall absorbed) rws ->
  vec_add a (map vsum (map (fun r => map2 rmul r (repeat rzero n)) rws)) = a.
Proof.
  unfold vec_add. intros E Ha. revert rws E.
  induction Ha as [|x a Hx _ IH]; intros [|r rws] E Hr; simpl in *;
    try discriminate; auto.
  inversion Hr as [|? ? Hr0 Hrs]; subst.
  rewrite (zero_products Hr0), Hx. f_equal. apply IH; [congruence | exact Hrs].
Qed.

(** The all-zero coefficient vector gives back the mean as soon as every
    factor times zero is absorbed by the sum and adding zero keeps every
    entry of the mean. *)
Lemma newShape_zeros_absorbed (s : pca_obj R) (mdl : ShapeModel R)
  (D K : nat) (scale : string) :
  model_of s = Some mdl -> wf_model D K mdl ->
  scale = "eigs" \/ scale = "std" ->
  Forall (Forall absorbed) (mode_factors scale mdl) ->
  Forall (fun m => radd m rzero = m) (mean mdl) ->
  newShape (repeat rzero K) scale s = (Ok (mean mdl), s).
Proof.
  intros Hm (Hlen & Hr & Hc & W & Hsd) Hscale Hf Hmean.
  destruct (model_of_attrs s Hm) as (Hmu & HU & _ & _ & Hs).
  unfold nrows in Hr.
  destruct Hscale as [-> | ->]; unfold mode_factors in Hf; simpl in Hf.
  - rewrite (newShape_eigs_expr s _ HU Hmu).
    rewrite np_mul_bcast_same by (rewrite repeat_length; exact Hc). simpl.
    unfold np_sum_axis1. simpl.
    rewrite np_add_bcast_same by (rewrite !length_map; congruence).
    rewrite vec_add_zero_rows by (auto; congruence). reflexivity.
  - rewrite (newShape_std_expr s _ HU Hmu Hs).
    rewrite np_mul_bcast_same by congruence. simpl.
    rewrite np_mul_bcast_same by (simpl; rewrite repeat_length; exact Hc).
    simpl. unfold np_sum_axis1. simpl.
    rewrite np_add_bcast_same by (rewrite !length_map; congruence).
    rewrite vec_add_zero_rows by (auto; rewrite length_map; congruence).
    reflexivity.
Qed.

End ZeroCoefficients.

(** ** Zero in binary64 *)

Lemma float_finite_cases (u : float) :
  is_finite u = true ->
  (exists sg, Prim2SF u = S754_zero sg) \/
  (exists sg m e, Prim2SF u = S754_finite sg m e).
Proof.
  unfold is_finite. simpl. unfold PrimFloat.is_nan, PrimFloat.is_infinity.
  intros H. rewrite !eqb_spec, abs_spec in H.
  destruct (Prim2SF u) as [sg|sg| |sg m e] eqn:E.
  - left. eauto.
  - exfalso. destruct sg; vm_compute in H; discriminate.
  - exfalso. vm_compute in H. discriminate.
  - right. eauto.
Qed.

(** A finite number times zero is a zero of either sign, which a sum
    started at zero absorbs. *)
Lemma float_finite_absorbed (u : float) :
  is_finite u = true -> absorbed u.
Proof.
  intros H. unfold absorbed. simpl. apply Prim2SF_inj.
  rewrite add_spec, mul_spec.
  destruct (float_finite_cases u H) as [[sg ->]|(sg & m & e & ->)];
    destruct sg; reflexivity.
Qed.

(** Adding zero keeps every number but the negative zero. *)
Lemma float_add_zero (m : float) :
  m <> PrimFloat.neg_zero -> radd m rzero = m.
Proof.
  intros H. simpl. apply Prim2SF_inj. rewrite add_spec.
  destruct (Prim2SF m) as [sg|sg| |sg q e] eqn:E; try reflexivity.
  destruct sg; [|reflexivity]. exfalso. apply H. apply Prim2SF_inj.
  rewrite E. reflexivity.
Qed.

Section SynthesisClaims.
Context {R : Type} {N : Numeric R}.

(** C1. On a fitted model with [K] modes and a coefficient vector of
    length exactly [K], [newShape] with [scale='eigs'] returns the stored
    mean plus the sum over the modes of the basis column scaled by its
    coefficient. *)
Theorem newShape_eigs_mean_plus_modes (s : pca_obj R) (mdl : ShapeModel R)
  (D K : nat) (c : list R) :
  model_of s = Some mdl -> wf_model D K mdl -> length c = K ->
  newShape c "eigs" s = (Ok (synthesize_raw mdl c), s).
Proof.
  intros Hm W E.
  destruct (model_of_attrs s Hm) as (Hmu & HU & _).
  rewrite (newShape_eigs_expr s c HU Hmu).
  rewrite (raw_expr_spec c W E). reflexivity.
Qed.

(** C10. On a fitted model a scale string other than 'eigs' and 'std'
    never yields a shape: the local [sf] is unbound at the return and the
    call raises [UnboundLocalError]. *)
Theorem newShape_unknown_scale_unbound (s : pca_obj R) (mdl : ShapeModel R)
  (c : list R) (scale : string) :
  model_of s = Some mdl -> scale <> "eigs" -> scale <> "std" ->
  newShape c scale s = (Raise (UnboundLocalError "sf"), s).
Proof.
  intros Hm H1 H2.
  destruct (model_of_attrs s Hm) as (Hmu & _).
  apply String.eqb_neq in H1. apply String.eqb_neq in H2.
  unfold newShape, bind, getattr, ret, raise.
  rewrite H1, H2, Hmu. reflexivity.
Qed.

End SynthesisClaims.

(** C4 (amended). In binary64, on a fitted model with [K] modes whose
    mean holds no negative zero, the all-zero coefficient vector of
    length [K] gives back exactly the stored mean in the 'eigs' mode when
    every basis entry is finite, and in the 'std' mode when every
    product of a basis entry with its mode's standard deviation is
    finite. *)
Theorem newShape_zeros_is_mean_when_finite (s : pca_obj float)
  (mdl : ShapeModel float) (D K : nat) (scale : string) :
  model_of s = Some mdl -> wf_model D K mdl ->
  scale = "eigs" \/ scale = "std" ->
  Forall (Forall (fun u => is_finite u = true)) (mode_factors scale mdl) ->
  Forall (fun m => m <> PrimFloat.neg_zero) (mean mdl) ->
  newShape (repeat rzero K) scale s = (Ok (mean mdl), s).
Proof.
  intros Hm W Hscale Hfin Hmean.
  apply (@newShape_zeros_absorbed float Numeric_float s mdl D K scale
           Hm W Hscale).
  - eapply Forall_impl; [|exact Hfin]. intros r Hr.
    eapply Forall_impl; [|exact Hr]. exact float_finite_absorbed.
  - eapply Forall_impl; [|exact Hmean]. exact float_add_zero.
Qed.

Section FitClaims.
Context {R : Type} {N : Numeric R}.
Variable svd : matrix R -> option (matrix R * list R * matrix R).

(** C2. After a successful [pca], on a coefficient vector of length
    exactly [K], [newShape] with [scale='std'] returns the mean plus the
    sum over the modes of the basis column scaled by the mode's standard
    deviation and by its coefficient, and each mode's standard deviation
    is that of its row of scores with the divisor [N]. *)
Theorem newShape_std_mean_plus_scaled_modes (s s' : pca_obj R)
  (mdl : ShapeModel R) (D K : nat) (c : list R) :
  pca svd s = (Ok tt, s') ->
  model_of s' = Some mdl -> wf_model D K mdl -> length c = K ->
  newShape c "std" s' = (Ok (synthesize_std mdl c), s') /\
  modeStdDevs mdl = map population_std (rows (scores mdl)).
Proof.
  intros Hp Hm W E.
  destruct (model_of_attrs s' Hm) as (Hmu & HU & _ & Hw & Hs).
  split.
  - rewrite (newShape_std_expr s' c HU Hmu Hs).
    rewrite (std_expr_spec c W E). reflexivity.
  - destruct (@pca_ok_inv _ _ svd s s' Hp) as (m & u & sv & v & w & _ & _ & Hd & ->).
    simpl in Hw, Hs. injection Hw as <-. injection Hs as <-.
    apply np_std_axis1_population.
    eapply np_dot_wf; exact Hd.
Qed.

End FitClaims.

(** ** Coefficient vectors of another length *)

Section Broadcasting.
Context {R : Type} {N : Numeric R}.

Lemma map2_repeat_r (c0 : R) (r : list R) :
  map2 rmul r (repeat c0 (length r)) = map (fun x => rmul x c0) r.
Proof. induction r; simpl; f_equal; auto. Qed.

Lemma map2_repeat_l (x : R) (c : list R) :
  map2 rmul (repeat x (length c)) c = map (fun y => rmul x y) c.
Proof. induction c; simpl; f_equal; auto. Qed.

Lemma map_const_repeat {A B : Type} (b : B) (l : list A) :
  map (fun _ => b) l = repeat b (length l).
Proof. induction l; simpl; f_equal; auto. Qed.

(** A single coefficient is spread over every mode. *)
Lemma np_mul_bcast_single (u : matrix R) (c0 : R) :
  wf_matrix u ->
  np_mul_bcast u [c0] = np_mul_bcast u (repeat c0 (ncols u)).
Proof.
  intros W. unfold np_mul_bcast at 2. rewrite repeat_length, Nat.eqb_refl.
  unfold np_mul_bcast. simpl length.
  assert (E : map (fun r => map2 rmul r (repeat c0 (ncols u))) (rows u)
              = map (fun r => map (fun x => rmul x c0) r) (rows u)).
  { apply map_ext_in. intros r Hr. unfold wf_matrix in W.
    rewrite Forall_forall in W. rewrite <- (W r Hr). apply map2_repeat_r. }
  rewrite E.
  destruct (ncols u =? 1) eqn:K1; [|reflexivity].
  apply Nat.eqb_eq in K1. f_equal. f_equal.
  apply map_ext_in. intros r Hr. unfold wf_matrix in W.
  rewrite Forall_forall in W. specialize (W r Hr). rewrite K1 in W.
  destruct r as [|x [|y r]]; try discriminate. reflexivity.
Qed.

(** Against a single mode, every coefficient multiplies that mode. *)
Lemma np_mul_bcast_one_mode (t : matrix R) (c : list R) :
  ncols t = 1 -> length c <> 1 ->
  np_mul_bcast t c
  = Ok (Mat (length c)
            (map (fun r => map (fun y => rmul (hd rzero r) y) c) (rows t))).
Proof.
  intros K1 L1. unfold np_mul_bcast. rewrite K1.
  destruct (1 =? length c) eqn:E1.
  - apply Nat.eqb_eq in E1. congruence.
  - destruct (length c =? 1) eqn:E2.
    + apply Nat.eqb_eq in E2. congruence.
    + reflexivity.
Qed.

Lemma cols_of_repeated (L : nat) (rws : list (list R)) :
  cols_of L (map (fun r => repeat (hd rzero r) L) rws)
  = repeat (map (hd rzero) rws) L.
Proof.
  unfold cols_of.
  rewrite <- (length_seq L 0) at 2.
  rewrite <- map_const_repeat.
  apply map_ext_in. intros k Hk. apply in_seq in Hk.
  rewrite map_map. apply map_ext. intros r.
  apply nth_repeat_lt. lia.
Qed.

Lemma one_mode_sums (rws : list (list R)) (c : list R) :
  map vsum (map (fun r => map (fun y => rmul (hd rzero r) y) c) rws)
  = mode_sum (length rws) (repeat (map (hd rzero) rws) (length c)) c.
Proof.
  rewrite <- cols_of_repeated.
  rewrite <- (length_map (fun r => repeat (hd rzero r) (length c)) rws) at 1.
  rewrite <- row_sums_mode_sum.
  - rewrite !map_map. apply map_ext. intros r.
    rewrite map2_repeat_l. reflexivity.
  - apply Forall_map, Forall_forall. intros r _. apply repeat_length.
Qed.

Lemma column_0_hd (m : matrix R) : column 0 m = map (hd rzero) (rows m).
Proof.
  unfold column. apply map_ext. intros [|x r]; reflexivity.
Qed.

Lemma np_mul_bcast_mismatch (t : matrix R) (c : list R) :
  ncols t <> length c -> length c <> 1 -> ncols t <> 1 ->
  np_mul_bcast t c
  = Raise (ValueError "operands could not be broadcast together").
Proof.
  intros H1 H2 H3. unfold np_mul_bcast.
  apply Nat.eqb_neq in H1, H2, H3. rewrite H1, H2, H3. reflexivity.
Qed.

End Broadcasting.

Section MismatchClaims.
Context {R : Type} {N : Numeric R}.

(** The three cases of a coefficient vector of another length. *)
Lemma newShape_mismatch_cases (s : pca_obj R)
  (mdl : ShapeModel R) (D K : nat) (c : list R) :
  model_of s = Some mdl -> wf_model D K mdl -> length c <> K ->
  (length c = 1 ->
   newShape c "eigs" s
   = (Ok (synthesize_raw mdl (repeat (hd rzero c) K)), s) /\
   newShape c "std" s
   = (Ok (synthesize_std mdl (repeat (hd rzero c) K)), s)) /\
  (K = 1 ->
   newShape c "eigs" s
   = (Ok (vec_add (mean mdl)
            (mode_sum D (repeat (column 0 (basis mdl)) (length c)) c)), s) /\
   newShape c "std" s
   = (Ok (vec_add (mean mdl)
            (mode_sum D
               (repeat (scale_vec (hd rzero (modeStdDevs mdl))
                                  (column 0 (basis mdl)))
                       (length c)) c)), s)) /\
  (length c <> 1 -> K <> 1 ->
   newShape c "eigs" s
   = (Raise (ValueError "operands could not be broadcast together"), s) /\
   newShape c "std" s
   = (Raise (ValueError "operands could not be broadcast together"), s)).
Proof.
  intros Hm W HL.
  destruct (model_of_attrs s Hm) as (Hmu & HU & _ & _ & Hs).
  rewrite (newShape_eigs_expr s c HU Hmu).
  rewrite (newShape_std_expr s c HU Hmu Hs).
  pose proof W as (Hlen & Hr & Hc & Wu & Hsd).
  split; [|split].
  - (* one coefficient *)
    intros L1. destruct c as [|c0 [|c1 c]]; try discriminate. simpl hd.
    split.
    + rewrite np_mul_bcast_single by exact Wu. rewrite Hc.
      rewrite (raw_expr_spec (repeat c0 K) W (repeat_length c0 K)).
      reflexivity.
    + rewrite <- (std_expr_spec (repeat c0 K) W (repeat_length c0 K)).
      rewrite np_mul_bcast_same by congruence. simpl.
      rewrite np_mul_bcast_single.
      * simpl. rewrite Hc. reflexivity.
      * unfold wf_matrix. simpl. rewrite Hc, <- Hsd.
        apply wf_scaled_rows; [exact Wu | congruence].
  - (* one mode *)
    intros K1. subst K. split.
    + rewrite np_mul_bcast_one_mode by congruence. simpl.
      unfold np_sum_axis1. simpl.
      rewrite np_add_bcast_same
        by (rewrite !length_map; unfold nrows in Hr; congruence).
      rewrite one_mode_sums, column_0_hd.
      unfold nrows in Hr. rewrite Hr. reflexivity.
    + rewrite np_mul_bcast_same by congruence. simpl.
      rewrite np_mul_bcast_one_mode by (simpl; congruence). simpl.
      unfold np_sum_axis1. simpl.
      rewrite np_add_bcast_same
        by (rewrite !length_map; unfold nrows in Hr; congruence).
      rewrite one_mode_sums, column_0_hd.
      rewrite length_map. unfold nrows in Hr. rewrite Hr.
      do 5 f_equal.
      unfold scale_vec. rewrite !map_map.
      apply map_ext_in. intros r Hin.
      unfold wf_matrix in Wu. rewrite Forall_forall in Wu.
      specialize (Wu r Hin). rewrite K1 in Wu, Hsd.
      destruct (modeStdDevs mdl) as [|s0 [|s1 sd]]; try discriminate.
      destruct r as [|x [|y r]]; try discriminate. reflexivity.
  - (* neither *)
    intros L1 K1. split.
    + rewrite np_mul_bcast_mismatch by congruence. reflexivity.
    + rewrite np_mul_bcast_same by congruence. simpl.
      rewrite np_mul_bcast_mismatch by (simpl; congruence). reflexivity.
Qed.

(** C3 (amended). On a fitted model with [K] modes, in both modes, a
    coefficient vector whose length is not [K] is broadcast, not padded
    and not rejected for being long: a vector of length one gives the
    synthesis of that coefficient repeated over all [K] modes; against a
    model with a single mode every coefficient acts on that mode and the
    call succeeds; in every other case the call raises numpy's
    [ValueError]. *)
Theorem newShape_broadcasts_coefficients (s : pca_obj R)
  (mdl : ShapeModel R) (D K : nat) (c : list R) :
  model_of s = Some mdl -> wf_model D K mdl ->
  newShape c "eigs" s = (broadcast_raw mdl c, s) /\
  newShape c "std" s = (broadcast_std mdl c, s).
Proof.
  intros Hm W. pose proof W as (Hlen & Hr & Hc & Wu & Hsd).
  unfold broadcast_raw, broadcast_std. rewrite Hr, Hc.
  destruct (length c =? K) eqn:E.
  - apply Nat.eqb_eq in E.
    destruct (model_of_attrs s Hm) as (Hmu & HU & _ & _ & Hs).
    rewrite (newShape_eigs_expr s c HU Hmu), (raw_expr_spec c W E).
    rewrite (newShape_std_expr s c HU Hmu Hs), (std_expr_spec c W E).
    split; reflexivity.
  - apply Nat.eqb_neq in E.
    destruct (@newShape_mismatch_cases s mdl D K c Hm W E) as (H1 & HK & Hn).
    destruct (length c =? 1) eqn:E1.
    + apply Nat.eqb_eq in E1. exact (H1 E1).
    + apply Nat.eqb_neq in E1. destruct (K =? 1) eqn:E2.
      * apply Nat.eqb_eq in E2. exact (HK E2).
      * apply Nat.eqb_neq in E2. exact (Hn E1 E2).
Qed.

End MismatchClaims.

(** ** Building the data matrix *)

Section Register.
Context {R : Type} {N : Numeric R}.
Variable registration :
  AmpObject R -> AmpObject R -> bool -> nat -> outcome (AmpObject R).
Variable policy : ragged_policy.

Lemma register_each_state (ts : list (AmpObject R)) (s : pca_obj R) :
  snd (register_each registration ts s) = s.
Proof.
  induction ts as [|t ts IH]; simpl; [reflexivity|].
  unfold bind, getattr, lift, ret.
  destruct (baseline s) as [b|]; simpl; [|reflexivity].
  destruct (registration b t true 10); simpl; [|reflexivity].
  destruct (register_each registration ts s) as [[rs|e] s'] eqn:E;
    simpl in *; congruence.
Qed.

(** [register], by what line 43 does with the registered shapes. *)
Lemma register_run (s : pca_obj R) (regs : list (AmpObject R)) :
  fst (register_each registration (shapes s) s) = Ok regs ->
  register registration policy s =
  match build_X policy regs with
  | Ok x => (Ok tt, set_X x (set_registered regs s))
  | Raise e => (Raise e, set_registered regs s)
  end.
Proof.
  intros H. pose proof (register_each_state (shapes s) s) as Hs.
  unfold register, bind, gets, setattr, getattr, lift.
  destruct (register_each registration (shapes s) s) as [o s'].
  simpl in H, Hs. subst o s'. simpl.
  destruct (build_X policy regs); reflexivity.
Qed.

Lemma length_flatten (v : list (R * R * R)) :
  length (flatten v) = 3 * length v.
Proof.
  induction v as [|[[x y] z] v IH]; simpl in *; [reflexivity|]. lia.
Qed.

Lemma flatten_nth (v : list (R * R * R)) :
  forall i j, i < length v -> j < 3 ->
  nth (3 * i + j) (flatten v) rzero
  = coord j (nth i v (rzero, rzero, rzero)).
Proof.
  induction v as [|[[x y] z] v IH]; intros i j Hi Hj; simpl in Hi; [lia|].
  destruct i as [|i].
  - destruct j as [|[|[|j]]]; try lia; reflexivity.
  - replace (3 * S i + j) with (S (S (S (3 * i + j)))) by lia.
    simpl. apply IH; lia.
Qed.

Lemma same_length_uniform (V : nat) (x : list R) (rest : list (AmpObject R)) :
  length x = 3 * V ->
  Forall (fun r => length (vert r) = V) rest ->
  same_length x (map (fun r => flatten (vert r)) rest) = true.
Proof.
  intros Hx H. unfold same_length. apply forallb_forall.
  intros y Hy. apply in_map_iff in Hy. destruct Hy as (r & <- & Hr).
  rewrite Forall_forall in H. apply Nat.eqb_eq.
  rewrite length_flatten, (H r Hr). congruence.
Qed.

Lemma same_length_ragged (x : list R) (rest : list (list R)) (a b : list R) :
  In a (x :: rest) -> In b (x :: rest) -> length a <> length b ->
  same_length x rest = false.
Proof.
  intros Ha Hb Hne. destruct (same_length x rest) eqn:E; [|reflexivity].
  exfalso. unfold same_length in E. rewrite forallb_forall in E.
  assert (L : forall y, In y (x :: rest) -> length y = length x).
  { intros y [<-|Hy]; [reflexivity|]. apply Nat.eqb_eq, E, Hy. }
  apply Hne. rewrite (L a Ha), (L b Hb). reflexivity.
Qed.

Lemma map_nth_seq (l : list R) (d : R) :
  map (fun j => nth j l d) (seq 0 (length l)) = l.
Proof.
  induction l as [|x l IH]; simpl; [reflexivity|].
  f_equal. rewrite <- seq_shift, map_map. exact IH.
Qed.

Lemma nth_column (m : matrix R) (i n : nat) :
  nth i (column n m) rzero = entry m i n.
Proof.
  unfold column, entry.
  assert (E : rzero = (fun r : list R => nth n r rzero) [])
    by (destruct n; reflexivity).
  rewrite E at 1.
  rewrite (map_nth (fun r : list R => nth n r rzero)). reflexivity.
Qed.

(** A column of the transpose is the row it came from. *)
Lemma column_transpose (m : matrix R) (n : nat) :
  wf_matrix m -> n < nrows m ->
  column n (transpose m) = nth n (rows m) [].
Proof.
  intros W Hn. unfold column at 1, transpose. simpl.
  rewrite map_map.
  assert (L : length (nth n (rows m) []) = ncols m).
  { unfold wf_matrix in W. rewrite Forall_forall in W.
    apply W, nth_In, Hn. }
  rewrite <- L.
  rewrite <- (map_nth_seq (nth n (rows m) []) rzero) at 2.
  apply map_ext. intros j. apply nth_column.
Qed.

Lemma transpose_wf (m : matrix R) :
  wf_matrix (transpose m) /\
  nrows (transpose m) = ncols m /\ ncols (transpose m) = nrows m.
Proof.
  unfold wf_matrix, transpose, nrows. simpl. repeat split.
  - apply Forall_map, Forall_forall. intros j _.
    unfold column. apply length_map.
  - rewrite length_map. apply length_seq.
Qed.

Lemma build_X_uniform (V : nat) (regs : list (AmpObject R)) :
  regs <> [] ->
  Forall (fun r => length (vert r) = V) regs ->
  build_X policy regs
  = Ok (Arr2 (transpose
                (Mat (3 * V) (map (fun r => flatten (vert r)) regs)))).
Proof.
  intros Hne H. destruct regs as [|r0 regs]; [congruence|].
  inversion H as [|? ? H0 Hrest]; subst.
  unfold build_X, np_array. simpl map. cbv beta iota.
  rewrite (same_length_uniform (V := length (vert r0)))
    by (auto using length_flatten).
  simpl. rewrite length_flatten. reflexivity.
Qed.

Lemma build_X_ragged (regs : list (AmpObject R)) (a b : AmpObject R) :
  In a regs -> In b regs -> length (vert a) <> length (vert b) ->
  build_X policy regs =
  match policy with
  | LegacyObjectArray => Ok (ArrObj (map (fun r => flatten (vert r)) regs))
  | RaggedValueError =>
      Raise (ValueError "setting an array element with a sequence")
  end.
Proof.
  intros Ha Hb Hne. unfold build_X, np_array.
  destruct regs as [|r0 regs]; [contradiction|]. simpl map. cbv beta iota.
  rewrite (@same_length_ragged _ _ (flatten (vert a)) (flatten (vert b))).
  - destruct policy; reflexivity.
  - change (In (flatten (vert a))
               (map (fun r => flatten (vert r)) (r0 :: regs))).
    apply (in_map (fun r => flatten (vert r))). exact Ha.
  - change (In (flatten (vert b))
               (map (fun r => flatten (vert r)) (r0 :: regs))).
    apply (in_map (fun r => flatten (vert r))). exact Hb.
  - rewrite !length_flatten. lia.
Qed.

End Register.

Section MatrixClaims.
Context {R : Type} {N : Numeric R}.
Variable registration :
  AmpObject R -> AmpObject R -> bool -> nat -> outcome (AmpObject R).
Variable policy : ragged_policy.
Variable svd : matrix R -> option (matrix R * list R * matrix R).


(** C7 (amended). When two registered shapes differ in vertex count,
    [register] makes no check of its own: with a numpy that builds object
    arrays it returns normally and stores a one-dimensional array of the
    unequal rows, on which [pca] then raises [AxisError]; with a numpy
    that refuses ragged input it raises that [ValueError], after
    [registered] has been stored. *)
Theorem register_ragged_unchecked (s : pca_obj R)
  (regs : list (AmpObject R)) (a b : AmpObject R) :
  fst (register_each registration (shapes s) s) = Ok regs ->
  In a regs -> In b regs -> length (vert a) <> length (vert b) ->
  match policy with
  | LegacyObjectArray =>
      let s' := set_X (ArrObj (map (fun r => flatten (vert r)) regs))
                      (set_registered regs s) in
      register registration policy s = (Ok tt, s') /\
      pca svd s' = (Raise (AxisError 1 1), s')
  | RaggedValueError =>
      register registration policy s
      = (Raise (ValueError "setting an array element with a sequence"),
         set_registered regs s)
  end.
Proof.
  intros Hreg Ha Hb Hne.
  rewrite (register_run registration policy s Hreg).
  rewrite (@build_X_ragged _ _ policy regs a b Ha Hb Hne).
  destruct policy; simpl; [|reflexivity].
  split; [reflexivity|].
  apply (@pca_one_dimensional _ _ svd _
           (ArrObj (map (fun r => flatten (vert r)) regs)));
    [reflexivity | discriminate].
Qed.

(** C8 (amended). With fewer than two registered shapes [register]
    raises nothing.  With none it stores an empty one-dimensional array
    and a following [pca] raises [AxisError].  With one shape of [V]
    vertices it stores a matrix of [3 V] rows and one column holding the
    flattened shape, and a following [pca] stores a model when the
    decomposition returns and raises its [LinAlgError] when it does
    not. *)
Theorem register_pca_fewer_than_two (s : pca_obj R)
  (regs : list (AmpObject R)) :
  thin_svd svd ->
  fst (register_each registration (shapes s) s) = Ok regs ->
  length regs < 2 ->
  match regs with
  | [] =>
      let s' := set_X (Arr1 []) (set_registered [] s) in
      register registration policy s = (Ok tt, s') /\
      pca svd s' = (Raise (AxisError 1 1), s')
  | r :: _ =>
      exists m : matrix R,
        let s' := set_X (Arr2 m) (set_registered [r] s) in
        register registration policy s = (Ok tt, s') /\
        nrows m = 3 * length (vert r) /\ ncols m = 1 /\
        column 0 m = flatten (vert r) /\
        match svd (sub_column m (mean_axis1 m)) with
        | Some (u, sv, v) =>
            exists w,
              pca svd s' = (Ok tt, after_fit m u sv v w s') /\
              model_of (after_fit m u sv v w s') <> None
        | None => pca svd s' = (Raise LinAlgError, after_mean m s')
        end
  end.
Proof.
  intros T Hreg Hlen. destruct regs as [|r [|r' regs]]; simpl in Hlen.
  - simpl. split.
    + rewrite (register_run registration policy s Hreg). reflexivity.
    + apply (@pca_one_dimensional _ _ svd _ (Arr1 []));
        [reflexivity | discriminate].
  - set (M := Mat (3 * length (vert r)) [flatten (vert r)]).
    assert (WM : wf_matrix M)
      by (unfold wf_matrix, M; simpl; repeat constructor;
          apply length_flatten).
    destruct (transpose_wf M) as (WT & RT & CT).
    exists (transpose M). cbv zeta. repeat split.
    + rewrite (register_run registration policy s Hreg).
      rewrite (@build_X_uniform _ _ policy (length (vert r)) [r]).
      * reflexivity.
      * discriminate.
      * repeat constructor.
    + exact RT.
    + rewrite (column_transpose WM) by (unfold nrows, M; simpl; lia).
      reflexivity.
    + rewrite (@pca_two_dimensional _ _ svd _ (transpose M)) by reflexivity.
      destruct (svd (sub_column (transpose M) (mean_axis1 (transpose M))))
        as [[[u sv] v]|] eqn:Hsvd; [|reflexivity].
      destruct (T _ _ _ _ Hsvd) as (_ & _ & _ & Hsv & Hv & _).
      unfold np_dot. simpl ncols. rewrite Hsv, Hv, Nat.eqb_refl.
      eexists. split; [reflexivity|]. discriminate.
  - lia.
Qed.

End MatrixClaims.

(** ** Failing fits and unfitted objects *)

Section FitFailure.
Context {R : Type} {N : Numeric R}.
Variable svd : matrix R -> option (matrix R * list R * matrix R).

(** C5 (amended). When the decomposition routine raises on the centred
    matrix, as numpy's does on non-finite values, [pca] fails with that
    routine's [LinAlgError] after the mean has been replaced by the row
    averages of [X]; the basis, the singular values, the right factor, the
    scores and the standard deviations keep their previous values. *)
Theorem pca_failure_overwrites_mean_only (s : pca_obj R) (m : matrix R) :
  X s = Some (Arr2 m) ->
  svd (sub_column m (mean_axis1 m)) = None ->
  exists s',
    pca svd s = (Raise LinAlgError, s') /\
    pca_mean s' = Some (mean_axis1 m) /\
    pca_U s' = pca_U s /\ pca_S s' = pca_S s /\ pca_V s' = pca_V s /\
    pc_weights s' = pc_weights s /\ pc_stdevs s' = pc_stdevs s /\
    X s' = X s /\ registered s' = registered s /\
    shapes s' = shapes s /\ baseline s' = baseline s.
Proof.
  intros HX Hsvd. exists (after_mean m s).
  rewrite (pca_two_dimensional svd s HX), Hsvd.
  repeat split.
Qed.

End FitFailure.

Section Unfitted.
Context {R : Type} {N : Numeric R}.
Variable svd : matrix R -> option (matrix R * list R * matrix R).
Variable registration :
  AmpObject R -> AmpObject R -> bool -> nat -> outcome (AmpObject R).
Variable policy : ragged_policy.
Variable load : string -> bool -> AmpObject R.
Variable planarTrim : R -> AmpObject R -> AmpObject R.

Lemma register_keeps_basis (s : pca_obj R) :
  no_basis s -> no_basis (snd (register registration policy s)).
Proof.
  intros H. pose proof (register_each_state registration (shapes s) s) as Hs.
  unfold register, bind, gets, setattr, getattr, lift.
  destruct (register_each registration (shapes s) s) as [[regs|e] s'];
    simpl in Hs; subst s'; simpl; [|exact H].
  destruct (build_X policy regs); exact H.
Qed.

Lemma newShape_state (sfs : list R) (scale : string) (s : pca_obj R) :
  snd (newShape sfs scale s) = s.
Proof.
  unfold newShape, bind, getattr, lift, ret, raise.
  destruct (String.eqb scale "eigs").
  - destruct (pca_U s) as [u|]; [|reflexivity].
    destruct (np_mul_bcast u sfs); [|reflexivity].
    destruct (pca_mean s); reflexivity.
  - destruct (String.eqb scale "std").
    + destruct (pca_U s) as [u|]; [|reflexivity].
      destruct (pc_stdevs s) as [sd|]; [|reflexivity].
      destruct (np_mul_bcast u sd) as [t|]; [|reflexivity].
      destruct (np_mul_bcast t sfs); [|reflexivity].
      destruct (pca_mean s); reflexivity.
    + destruct (pca_mean s); reflexivity.
Qed.

Lemma failed_pca_keeps_basis (s : pca_obj R) :
  thin_svd svd -> fst (pca svd s) <> Ok tt ->
  no_basis s -> no_basis (snd (pca svd s)).
Proof.
  intros T Hf H. destruct (X s) as [a|] eqn:HX.
  - destruct a as [x|m|items].
    + rewrite (pca_one_dimensional svd s HX) by discriminate. exact H.
    + rewrite (pca_two_dimensional svd s HX) in *.
      destruct (svd (sub_column m (mean_axis1 m))) as [[[u sv] v]|] eqn:Hs;
        [|exact H].
      destruct (T _ _ _ _ Hs) as (_ & _ & _ & Hsv & Hv & _).
      exfalso. apply Hf.
      unfold np_dot. simpl ncols. rewrite Hsv, Hv, Nat.eqb_refl.
      reflexivity.
    + rewrite (pca_one_dimensional svd s HX) by discriminate. exact H.
  - rewrite (pca_unbound_X svd s HX). exact H.
Qed.

(** Until [pca] has returned normally, the object has no basis. *)
Lemma never_fitted_no_basis (s : pca_obj R) :
  thin_svd svd ->
  never_fitted svd registration policy load planarTrim s -> no_basis s.
Proof.
  intros T H. induction H as [|s c _ IH Hc].
  - repeat split.
  - destruct c; simpl in *.
    + exact IH.
    + exact IH.
    + exact IH.
    + apply register_keeps_basis, IH.
    + apply failed_pca_keeps_basis; auto.
    + destruct (newShape sfs scale s) as [[v|e] s'] eqn:E;
        pose proof (newShape_state sfs scale s) as Hs;
        rewrite E in Hs; simpl in *; subst s'; exact IH.
Qed.

(** C6 (amended). On an object on which [pca] has never returned
    normally, [newShape] returns no shape for any coefficient vector and
    any scale string: in the modes 'eigs' and 'std' it raises
    [AttributeError] for the missing [pca_U], and for any other string
    it raises [AttributeError] or [UnboundLocalError]. *)
Theorem newShape_before_fit_raises (s : pca_obj R) (sfs : list R)
  (scale : string) :
  thin_svd svd ->
  never_fitted svd registration policy load planarTrim s ->
  exists e,
    newShape sfs scale s = (Raise e, s) /\
    (scale = "eigs" \/ scale = "std" -> e = AttributeError "pca_U") /\
    (exn_class e = "AttributeError" \/ exn_class e = "UnboundLocalError").
Proof.
  intros T H. destruct (never_fitted_no_basis T H) as (HU & _).
  unfold newShape, bind, getattr, lift, ret, raise.
  destruct (String.eqb scale "eigs") eqn:E1.
  - exists (AttributeError "pca_U"). rewrite HU. simpl. auto.
  - destruct (String.eqb scale "std") eqn:E2.
    + exists (AttributeError "pca_U"). rewrite HU. simpl. auto.
    + apply String.eqb_neq in E1, E2.
      destruct (pca_mean s).
      * exists (UnboundLocalError "sf"). simpl. repeat split; auto.
        intros [?|?]; congruence.
      * exists (AttributeError "pca_mean"). simpl. repeat split; auto.
        intros [?|?]; congruence.
Qed.

End Unfitted.

Lemma zero_svd_thin : thin_svd zero_svd.
Proof.
  intros a u sv v H. unfold zero_svd in H. injection H as <- <- <-.
  unfold nrows, wf_matrix. simpl.
  rewrite !repeat_length. repeat split.
  - apply Forall_forall. intros r Hr. apply repeat_spec in Hr. subst r.
    apply repeat_length.
  - apply Forall_forall. intros r Hr. apply repeat_spec in Hr. subst r.
    apply repeat_length.
Qed.

Lemma failing_svd_thin {R : Type} : thin_svd (@failing_svd R).
Proof. intros a u sv v H. discriminate. Qed.

(** ** Instances *)

Lemma wf_three_mode_model : wf_model 1 3 three_mode_model.
Proof. unfold wf_model, wf_matrix; simpl; repeat split; repeat constructor. Qed.

Lemma wf_one_mode_model : wf_model 2 1 one_mode_model.
Proof. unfold wf_model, wf_matrix; simpl; repeat split; repeat constructor. Qed.

Lemma wf_demo_model : wf_model 2 2 demo_model.
Proof. unfold wf_model, wf_matrix; simpl; repeat split; repeat constructor. Qed.

Lemma newShape_eigs_mean_plus_modes_witness :
  newShape [1; 2; 3]%Z "eigs" three_mode_obj
  = (Ok (synthesize_raw three_mode_model [1; 2; 3]%Z), three_mode_obj).
Proof.
  apply (@newShape_eigs_mean_plus_modes Z _ three_mode_obj three_mode_model
           1 3 [1; 2; 3]%Z).
  - reflexivity.
  - exact wf_three_mode_model.
  - reflexivity.
Defined.

Lemma newShape_std_mean_plus_scaled_modes_witness :
  newShape [1; 2]%Z "std" demo_fitted
  = (Ok (synthesize_std demo_model [1; 2]%Z), demo_fitted) /\
  modeStdDevs demo_model = map population_std (rows (scores demo_model)).
Proof.
  apply (@newShape_std_mean_plus_scaled_modes Z _ demo_svd demo_data
           demo_fitted demo_model 2 2 [1; 2]%Z).
  - reflexivity.
  - reflexivity.
  - exact wf_demo_model.
  - reflexivity.
Defined.

(** C4, as stated, fails: the fit of the finite matrix [overflow_X]
    returns normally with a finite mean and a finite basis, the squares
    inside the standard deviation overflow, and the all-zero coefficient
    vector in the 'std' mode gives NaN, not the mean. *)
Lemma zeros_std_after_overflow_is_nan :
  has_nonfinite overflow_X = false /\
  fst (pca overflow_svd overflow_data) = Ok tt /\
  model_of overflow_fitted
  = Some {| mean := [0%float];
            basis := Mat 1 [[1%float]];
            singularValues := [(0x1p600 * PrimFloat.sqrt 2)%float];
            scores := scores overflow_model;
            modeStdDevs := [PrimFloat.infinity] |} /\
  has_nonfinite (scores overflow_model) = false /\
  newShape (repeat rzero 1) "eigs" overflow_fitted
  = (Ok [0%float], overflow_fitted) /\
  newShape (repeat rzero 1) "std" overflow_fitted
  = (Ok [PrimFloat.nan], overflow_fitted) /\
  [PrimFloat.nan] <> [0%float].
Proof.
  repeat split; try (vm_compute; reflexivity).
  intros H.
  apply (f_equal (fun l => match l with
                           | x :: _ => PrimFloat.is_nan x
                           | [] => false
                           end)) in H.
  vm_compute in H. discriminate.
Qed.

Lemma newShape_zeros_is_mean_when_finite_witness :
  newShape (repeat rzero 2) "eigs" small_fitted
  = (Ok (mean small_model), small_fitted) /\
  newShape (repeat rzero 2) "std" small_fitted
  = (Ok (mean small_model), small_fitted).
Proof.
  split.
  - apply (@newShape_zeros_is_mean_when_finite small_fitted small_model
             2 2 "eigs").
    + reflexivity.
    + unfold wf_model, wf_matrix; simpl; repeat split; repeat constructor.
    + left. reflexivity.
    + repeat constructor.
    + repeat constructor; intros H;
        apply (f_equal PrimFloat.classify) in H; vm_compute in H;
        discriminate.
  - apply (@newShape_zeros_is_mean_when_finite small_fitted small_model
             2 2 "std").
    + reflexivity.
    + unfold wf_model, wf_matrix; simpl; repeat split; repeat constructor.
    + right. reflexivity.
    + repeat constructor.
    + repeat constructor; intros H;
        apply (f_equal PrimFloat.classify) in H; vm_compute in H;
        discriminate.
Defined.

Lemma newShape_unknown_scale_unbound_witness :
  newShape [1; 2; 3]%Z "pcs" three_mode_obj
  = (Raise (UnboundLocalError "sf"), three_mode_obj).
Proof.
  apply (@newShape_unknown_scale_unbound Z _ three_mode_obj three_mode_model
           [1; 2; 3]%Z "pcs").
  - reflexivity.
  - discriminate.
  - discriminate.
Defined.

(** C3, as stated, fails: on a model with three modes [[c]] and
    [[c; 0; 0]] give different shapes, a vector longer than the single
    mode of a one-mode model is accepted, and the error raised for four
    coefficients against three modes is a [ValueError]. *)
Lemma short_vector_not_zero_padded :
  newShape [1]%Z "eigs" three_mode_obj = (Ok [3]%Z, three_mode_obj) /\
  newShape (zero_pad 3 [1]%Z) "eigs" three_mode_obj
  = (Ok [1]%Z, three_mode_obj) /\
  newShape [1]%Z "std" three_mode_obj
  <> newShape (zero_pad 3 [1]%Z) "std" three_mode_obj /\
  newShape [1; 2]%Z "eigs" one_mode_obj = (Ok [13; 26]%Z, one_mode_obj) /\
  newShape [1; 2; 3; 4]%Z "eigs" three_mode_obj
  = (Raise (ValueError "operands could not be broadcast together"),
     three_mode_obj) /\
  exn_class (ValueError "operands could not be broadcast together")
  <> "DimensionMismatchError".
Proof.
  repeat split; try reflexivity; vm_compute; discriminate.
Qed.

Lemma newShape_broadcasts_coefficients_witness :
  (newShape [5]%Z "eigs" three_mode_obj
   = (broadcast_raw three_mode_model [5]%Z, three_mode_obj) /\
   newShape [5]%Z "std" three_mode_obj
   = (broadcast_std three_mode_model [5]%Z, three_mode_obj)) /\
  (newShape [1; 2]%Z "eigs" one_mode_obj
   = (broadcast_raw one_mode_model [1; 2]%Z, one_mode_obj) /\
   newShape [1; 2]%Z "std" one_mode_obj
   = (broadcast_std one_mode_model [1; 2]%Z, one_mode_obj)).
Proof.
  split.
  - apply (@newShape_broadcasts_coefficients Z _ three_mode_obj
             three_mode_model 1 3 [5]%Z).
    + reflexivity.
    + exact wf_three_mode_model.
  - apply (@newShape_broadcasts_coefficients Z _ one_mode_obj
             one_mode_model 2 1 [1; 2]%Z).
    + reflexivity.
    + exact wf_one_mode_model.
Defined.

(** C5, as stated, fails: [X] holds a NaN; when the decomposition
    raises, the error is a [LinAlgError] and the object differs from the
    previously fitted one (its mean is now NaN); when the decomposition
    returns, the fit does not fail at all. *)
Lemma pca_nonfinite_not_atomic :
  has_nonfinite nonfinite_X = true /\
  X previously_fitted = Some (Arr2 nonfinite_X) /\
  fst (pca failing_svd previously_fitted) = Raise LinAlgError /\
  exn_class LinAlgError <> "DecompositionError" /\
  snd (pca failing_svd previously_fitted) <> previously_fitted /\
  fst (pca constant_svd previously_fitted) = Ok tt.
Proof.
  repeat split; try reflexivity.
  - discriminate.
  - intros H.
    apply (f_equal (fun s => match pca_mean s with
                             | Some (x :: _) => PrimFloat.is_nan x
                             | _ => false
                             end)) in H.
    vm_compute in H. discriminate.
Qed.

Lemma pca_failure_overwrites_mean_only_witness :
  exists s',
    pca failing_svd previously_fitted = (Raise LinAlgError, s') /\
    pca_mean s' = Some (mean_axis1 nonfinite_X) /\
    pca_U s' = pca_U previously_fitted /\
    pca_S s' = pca_S previously_fitted /\
    pca_V s' = pca_V previously_fitted /\
    pc_weights s' = pc_weights previously_fitted /\
    pc_stdevs s' = pc_stdevs previously_fitted /\
    X s' = X previously_fitted /\
    registered s' = registered previously_fitted /\
    shapes s' = shapes previously_fitted /\
    baseline s' = baseline previously_fitted.
Proof.
  apply (@pca_failure_overwrites_mean_only float _ failing_svd
           previously_fitted nonfinite_X).
  - reflexivity.
  - reflexivity.
Defined.

(** C6, as stated, fails: on a fresh object the error is an
    [AttributeError]. *)
Lemma newShape_unfitted_attribute_error :
  newShape [1]%Z "eigs" (init Z)
  = (Raise (AttributeError "pca_U"), init Z) /\
  newShape [1]%Z "std" (init Z)
  = (Raise (AttributeError "pca_U"), init Z) /\
  exn_class (AttributeError "pca_U") <> "ModelNotFittedError".
Proof.
  repeat split; try reflexivity. discriminate.
Qed.

Lemma newShape_before_fit_raises_witness :
  exists e,
    newShape [1; 2]%Z "pcs" after_failed_fit = (Raise e, after_failed_fit) /\
    ("pcs" = "eigs" \/ "pcs" = "std" -> e = AttributeError "pca_U") /\
    (exn_class e = "AttributeError" \/ exn_class e = "UnboundLocalError").
Proof.
  apply (@newShape_before_fit_raises Z _ failing_svd identity_registration
           LegacyObjectArray demo_load no_trim after_failed_fit
           [1; 2]%Z "pcs").
  - intros a u sv v H. discriminate H.
  - unfold after_failed_fit, demo_run.
    apply nf_call; [|intros _; vm_compute; discriminate].
    apply nf_call; [|discriminate].
    apply nf_call; [|discriminate].
    apply nf_call; [|discriminate].
    apply nf_init.
Defined.

(** C7, as stated, fails: two shapes with one and two vertices are
    either stored as an object array without any error or refused with a
    [ValueError]. *)
Lemma register_ragged_no_topology_error :
  map (fun r => length (vert r)) (shapes ragged_obj) = [1; 2] /\
  fst (register identity_registration LegacyObjectArray ragged_obj) = Ok tt /\
  X (snd (register identity_registration LegacyObjectArray ragged_obj))
  = Some (ArrObj [[0; 0; 0]; [0; 0; 0; 1; 0; 0]]%Z) /\
  fst (register identity_registration RaggedValueError ragged_obj)
  = Raise (ValueError "setting an array element with a sequence") /\
  exn_class (ValueError "setting an array element with a sequence")
  <> "TopologyMismatchError".
Proof.
  repeat split; try reflexivity. discriminate.
Qed.

Lemma register_ragged_unchecked_witness :
  (let s' := set_X (ArrObj (map (fun r => flatten (vert r))
                                (shapes ragged_obj)))
                   (set_registered (shapes ragged_obj) ragged_obj) in
   register identity_registration LegacyObjectArray ragged_obj = (Ok tt, s') /\
   pca zero_svd s' = (Raise (AxisError 1 1), s')) /\
  register identity_registration RaggedValueError ragged_obj
  = (Raise (ValueError "setting an array element with a sequence"),
     set_registered (shapes ragged_obj) ragged_obj).
Proof.
  split.
  - apply (@register_ragged_unchecked Z _ identity_registration
             LegacyObjectArray zero_svd ragged_obj (shapes ragged_obj)
             (mesh_of [(0, 0, 0)]%Z) (mesh_of [(0, 0, 0); (1, 0, 0)]%Z)).
    + reflexivity.
    + simpl. auto.
    + simpl. auto.
    + simpl. lia.
  - apply (@register_ragged_unchecked Z _ identity_registration
             RaggedValueError zero_svd ragged_obj (shapes ragged_obj)
             (mesh_of [(0, 0, 0)]%Z) (mesh_of [(0, 0, 0); (1, 0, 0)]%Z)).
    + reflexivity.
    + simpl. auto.
    + simpl. auto.
    + simpl. lia.
Defined.

(** C8, as stated, fails: with one registered shape both steps return
    normally and a model is stored; with the empty corpus of a folder
    without [.stl] files [register] returns normally and [pca] raises
    [AxisError]. *)
Lemma fewer_than_two_no_insufficient_data :
  fst (register identity_registration LegacyObjectArray single_obj) = Ok tt /\
  fst (pca zero_svd
         (snd (register identity_registration LegacyObjectArray single_obj)))
  = Ok tt /\
  model_of
    (snd (pca zero_svd
            (snd (register identity_registration LegacyObjectArray
                           single_obj))))
  = Some {| mean := [1; 2; 3]%Z;
            basis := Mat 1 [[0]; [0]; [0]]%Z;
            singularValues := [0]%Z;
            scores := Mat 1 [[0]]%Z;
            modeStdDevs := [0]%Z |} /\
  shapes empty_corpus_obj = [] /\
  fst (register identity_registration LegacyObjectArray empty_corpus_obj)
  = Ok tt /\
  fst (pca zero_svd
         (snd (register identity_registration LegacyObjectArray
                        empty_corpus_obj)))
  = Raise (AxisError 1 1) /\
  exn_class (AxisError 1 1) <> "InsufficientDataError".
Proof.
  repeat split; try reflexivity. discriminate.
Qed.

Lemma register_pca_fewer_than_two_witness :
  (let s' := set_X (Arr1 []) (set_registered [] empty_corpus_obj) in
   register identity_registration LegacyObjectArray empty_corpus_obj
   = (Ok tt, s') /\
   pca zero_svd s' = (Raise (AxisError 1 1), s')) /\
  (exists m : matrix Z,
     let r := mesh_of [(1, 2, 3)]%Z in
     let s' := set_X (Arr2 m) (set_registered [r] single_obj) in
     register identity_registration LegacyObjectArray single_obj
     = (Ok tt, s') /\
     nrows m = 3 * length (vert r) /\ ncols m = 1 /\
     column 0 m = flatten (vert r) /\
     match zero_svd (sub_column m (mean_axis1 m)) with
     | Some (u, sv, v) =>
         exists w,
           pca zero_svd s' = (Ok tt, after_fit m u sv v w s') /\
           model_of (after_fit m u sv v w s') <> None
     | None => pca zero_svd s' = (Raise LinAlgError, after_mean m s')
     end).
Proof.
  split.
  - apply (@register_pca_fewer_than_two Z _ identity_registration
             LegacyObjectArray zero_svd empty_corpus_obj []).
    + exact zero_svd_thin.
    + reflexivity.
    + simpl. lia.
  - apply (@register_pca_fewer_than_two Z _ identity_registration
             LegacyObjectArray zero_svd single_obj (shapes single_obj)).
    + exact zero_svd_thin.
    + reflexivity.
    + simpl. lia.
Defined.


(** * Further properties of the class *)

(** ** Importing a folder *)

Lemma substring_whole (s : string) : substring 0 (String.length s) s = s.
Proof. induction s as [|c s IH]; simpl; [reflexivity|]. now rewrite IH. Qed.

Lemma substring_after_prefix (p suffix : string) :
  substring (String.length p) (String.length suffix) (p ++ suffix)%string
  = suffix.
Proof.
  induction p as [|c p IH]; simpl; [apply substring_whole | exact IH].
Qed.

Lemma string_length_app (p s : string) :
  String.length (p ++ s)%string = String.length p + String.length s.
Proof. induction p as [|c p IH]; simpl; [reflexivity|]. now rewrite IH. Qed.

Lemma string_split_at (s : string) :
  forall n, n <= String.length s ->
  s = (substring 0 n s ++ substring n (String.length s - n) s)%string.
Proof.
  induction s as [|c s IH]; intros n Hn; simpl in Hn.
  - assert (n = 0) by lia. subst n. reflexivity.
  - destruct n as [|n].
    + simpl. now rewrite substring_whole.
    + simpl. f_equal. apply IH. lia.
Qed.

(** [endswith] holds exactly of the names made of a stem and the
    suffix. *)
Lemma endswith_spec (f suffix : string) :
  endswith f suffix = true <-> exists stem, f = (stem ++ suffix)%string.
Proof.
  unfold endswith. rewrite andb_true_iff, Nat.leb_le, String.eqb_eq. split.
  - intros [Hlen Hsub].
    exists (substring 0 (String.length f - String.length suffix) f).
    pose proof (string_split_at f
                  (n := String.length f - String.length suffix)) as H.
    replace (String.length f - (String.length f - String.length suffix))
      with (String.length suffix) in H by lia.
    rewrite Hsub in H. apply H. lia.
  - intros [stem ->]. rewrite string_length_app. split; [lia|].
    replace (String.length stem + String.length suffix
             - String.length suffix) with (String.length stem) by lia.
    apply substring_after_prefix.
Qed.

Section FolderImport.
Context {R : Type} {N : Numeric R}.
Variable load : string -> bool -> AmpObject R.

(** X1. Given that every load returns, [importFolder] returns normally
    and replaces the corpus by the meshes loaded from exactly those names
    of the listing that consist of a stem followed by [.stl], in listing
    order, each loaded from the path prefixed to the name. *)
Theorem importFolder_loads_stl_names (listing : list string)
  (path : string) (unify : bool) (s : pca_obj R) :
  exists kept : list string,
    importFolder load listing path unify s
    = (Ok tt, set_shapes (map (fun f => load (path ++ f)%string unify) kept) s)
    /\ kept = filter (fun f => endswith f ".stl") listing
    /\ (forall f, In f kept <->
                  In f listing /\ exists stem, f = (stem ++ ".stl")%string)
    /\ length kept <= length listing.
Proof.
  exists (filter (fun f => endswith f ".stl") listing).
  repeat split.
  - apply filter_In in H. tauto.
  - apply filter_In in H. apply endswith_spec. tauto.
  - intros [Hin Hstem]. apply filter_In. split; [exact Hin|].
    apply endswith_spec. exact Hstem.
  - apply filter_length_le.
Qed.

End FolderImport.

(** ** Slicing and registering *)

Section CorpusSteps.
Context {R : Type} {N : Numeric R}.
Variable svd : matrix R -> option (matrix R * list R * matrix R).
Variable registration :
  AmpObject R -> AmpObject R -> bool -> nat -> outcome (AmpObject R).
Variable policy : ragged_policy.
Variable load : string -> bool -> AmpObject R.


Lemma register_each_error (ts : list (AmpObject R)) (s : pca_obj R)
  (b : AmpObject R) :
  baseline s = Some b ->
  forall t e, In t ts -> registration b t true 10 = Raise e ->
  exists t' e', In t' ts /\ registration b t' true 10 = Raise e' /\
                fst (register_each registration ts s) = Raise e'.
Proof.
  intros Hb. induction ts as [|t0 ts IH]; intros t e Hin He; [contradiction|].
  simpl. unfold bind, getattr, lift, ret. rewrite Hb. simpl.
  destruct (registration b t0 true 10) as [r0|e0] eqn:E0.
  - destruct Hin as [->|Hin]; [congruence|].
    destruct (IH t e Hin He) as (t' & e' & Hin' & He' & Hf).
    exists t', e'. simpl. repeat split; auto.
    pose proof (register_each_state registration ts s) as Hs.
    destruct (register_each registration ts s) as [[rs|e1] s1];
      simpl in *; congruence.
  - exists t0, e0. simpl. auto.
Qed.

(** X3. When the registration of some shape raises, [register] raises
    the error of a failing shape and leaves the object as it was: the
    batch is aborted, no shape is dropped and neither [registered] nor
    [X] is assigned. *)
Theorem register_aborts_on_registration_error (s : pca_obj R)
  (b t : AmpObject R) (e : pyexn) :
  baseline s = Some b -> In t (shapes s) ->
  registration b t true 10 = Raise e ->
  exists t' e',
    In t' (shapes s) /\ registration b t' true 10 = Raise e' /\
    register registration policy s = (Raise e', s).
Proof.
  intros Hb Hin He.
  destruct (@register_each_error (shapes s) s b Hb t e Hin He)
    as (t' & e' & Hin' & He' & Hf).
  exists t', e'. repeat split; auto.
  pose proof (register_each_state registration (shapes s) s) as Hs.
  unfold register, bind, gets.
  destruct (register_each registration (shapes s) s) as [o s1].
  simpl in *. subst. reflexivity.
Qed.

(** X4. Without a baseline, [register] on a non-empty corpus raises
    [AttributeError] for [baseline] and leaves the object as it was,
    while on an empty corpus it returns normally, the baseline never
    being read, and stores an empty registered list and an empty
    one-dimensional [X]. *)
Theorem register_without_baseline (s : pca_obj R) :
  baseline s = None ->
  register registration policy s =
  match shapes s with
  | [] => (Ok tt, set_X (Arr1 []) (set_registered [] s))
  | _ :: _ => (Raise (AttributeError "baseline"), s)
  end.
Proof.
  intros Hb. unfold register, bind, gets.
  destruct (shapes s) as [|t ts]; simpl.
  - reflexivity.
  - unfold bind, getattr. rewrite Hb. reflexivity.
Qed.

(** X5. Importing a folder in which no name ends in [.stl] gives an
    empty corpus; [register] then returns normally, with or without a
    baseline, and [pca] then raises [AxisError] without changing the
    object. *)
Theorem empty_folder_pipeline (listing : list string) (path : string)
  (unify : bool) (s : pca_obj R) :
  (forall f stem, In f listing -> f <> (stem ++ ".stl")%string) ->
  let s1 := snd (importFolder load listing path unify s) in
  let s2 := set_X (Arr1 []) (set_registered [] s1) in
  shapes s1 = [] /\
  register registration policy s1 = (Ok tt, s2) /\
  pca svd s2 = (Raise (AxisError 1 1), s2).
Proof.
  intros Hno.
  assert (E : filter (fun f => endswith f ".stl") listing = []).
  { induction listing as [|f l IH]; [reflexivity|]. simpl.
    destruct (endswith f ".stl") eqn:Ef.
    - apply endswith_spec in Ef. destruct Ef as [stem Hf].
      exfalso. apply (Hno f stem); simpl; auto.
    - apply IH. intros g stem Hg. apply Hno. simpl. auto. }
  unfold importFolder, setattr. simpl. rewrite E. simpl.
  split; [reflexivity|]. split; reflexivity.
Qed.

End CorpusSteps.

(** ** What a fit produces *)

Section FitResults.
Context {R : Type} {N : Numeric R}.
Variable svd : matrix R -> option (matrix R * list R * matrix R).

Lemma thin_svd_dot (a u v : matrix R) (sv : list R) :
  thin_svd svd -> svd a = Some (u, sv, v) ->
  exists w, np_dot (np_diag sv) v = Ok w.
Proof.
  intros T H. destruct (T _ _ _ _ H) as (_ & _ & _ & Hsv & Hv & _).
  unfold np_dot. simpl ncols. rewrite Hsv, Hv, Nat.eqb_refl.
  eexists. reflexivity.
Qed.

(** X6. With a decomposition of the thin shapes, [pca] has four
    outcomes only: [AttributeError] for [X] before any [register],
    [AxisError] on a one-dimensional [X], [LinAlgError] from the
    decomposition with the mean alone replaced, or a normal return with
    every model attribute assigned.  It never raises [ValueError]. *)
Theorem pca_outcomes (s : pca_obj R) :
  thin_svd svd ->
  match X s with
  | None => pca svd s = (Raise (AttributeError "X"), s)
  | Some (Arr2 m) =>
      match svd (sub_column m (mean_axis1 m)) with
      | None => pca svd s = (Raise LinAlgError, after_mean m s)
      | Some (u, sv, v) =>
          exists w, np_dot (np_diag sv) v = Ok w /\
                    pca svd s = (Ok tt, after_fit m u sv v w s)
      end
  | Some _ => pca svd s = (Raise (AxisError 1 1), s)
  end.
Proof.
  intros T. destruct (X s) as [[x|m|items]|] eqn:HX.
  - apply (pca_one_dimensional svd s HX). discriminate.
  - rewrite (pca_two_dimensional svd s HX).
    destruct (svd (sub_column m (mean_axis1 m))) as [[[u sv] v]|] eqn:Hs;
      [|reflexivity].
    destruct (thin_svd_dot T Hs) as [w Hw].
    exists w. rewrite Hw. auto.
  - apply (pca_one_dimensional svd s HX). discriminate.
  - apply (pca_unbound_X svd s HX).
Qed.

Lemma sub_column_shape (m : matrix R) (mu : list R) :
  length mu = nrows m ->
  nrows (sub_column m mu) = nrows m /\ ncols (sub_column m mu) = ncols m.
Proof.
  intros H. unfold sub_column, nrows in *. simpl. split; [|reflexivity].
  apply map2_length. congruence.
Qed.

(** X7. With a decomposition of the thin shapes, a normal return of
    [pca] on a [(D, N)] matrix leaves a model with [K = min D N] modes:
    a mean of length [D] equal to the row means of [X], a [(D, K)]
    basis, [K] singular values, a [(K, N)] array of scores and [K]
    standard deviations. *)
Theorem pca_establishes_model (s s' : pca_obj R) (m : matrix R) :
  thin_svd svd ->
  X s = Some (Arr2 m) ->
  pca svd s = (Ok tt, s') ->
  exists mdl,
    model_of s' = Some mdl /\
    wf_model (nrows m) (Nat.min (nrows m) (ncols m)) mdl /\
    mean mdl = mean_axis1 m /\
    length (singularValues mdl) = Nat.min (nrows m) (ncols m) /\
    wf_matrix (scores mdl) /\
    nrows (scores mdl) = Nat.min (nrows m) (ncols m) /\
    ncols (scores mdl) = ncols m.
Proof.
  intros T HX Hp.
  destruct (@pca_ok_inv _ _ svd s s' Hp)
    as (m' & u & sv & v & w & HX' & Hs & Hd & ->).
  rewrite HX in HX'. injection HX' as <-.
  assert (Hmu : length (mean_axis1 m) = nrows m)
    by (unfold mean_axis1, nrows; apply length_map).
  destruct (sub_column_shape m (mean_axis1 m) Hmu) as (Hr & Hc).
  destruct (T _ _ _ _ Hs) as (Hur & Huc & Wu & Hsv & Hvr & Hvc & Wv).
  rewrite Hr, Hc in *.
  destruct (@np_dot_wf _ _ (np_diag sv) v w Hd) as (Ww & Hwc & Hwr).
  eexists. split; [reflexivity|]. simpl.
  unfold wf_model. simpl. repeat split; auto.
  - unfold np_std_axis1. rewrite length_map.
    unfold nrows in Hwr. rewrite Hwr. simpl.
    rewrite !length_map, length_seq. exact Hsv.
  - rewrite Hwr. unfold nrows. simpl.
    rewrite !length_map, length_seq. exact Hsv.
  - congruence.
Qed.

End FitResults.

(** ** Scores and reconstruction *)

Lemma nth_map_seq {A : Type} (f : nat -> A) (n k : nat) (d : A) :
  k < n -> nth k (map f (seq 0 n)) d = f k.
Proof.
  intros H. rewrite (nth_indep _ d (f 0)) by (rewrite length_map, length_seq; exact H).
  rewrite map_nth, seq_nth by exact H. reflexivity.
Qed.

Section Scores.
Context {R : Type} {N : Numeric R}.
Variable svd : matrix R -> option (matrix R * list R * matrix R).

Hypothesis radd_zero_l : forall x : R, radd rzero x = x.
Hypothesis radd_zero_r : forall x : R, radd x rzero = x.
Hypothesis rmul_zero_l : forall x : R, rmul rzero x = rzero.

(** The sum of a row of a diagonal matrix against a column keeps the
    diagonal term only. *)
Lemma diag_row_sum (a : R) (k : nat) (col : list R) :
  forall st acc,
  fold_left radd
    (map2 rmul (map (fun j => if k =? j then a else rzero)
                    (seq st (length col))) col) acc
  = if (st <=? k) && (k <? st + length col)
    then radd acc (rmul a (nth (k - st) col rzero))
    else acc.
Proof.
  induction col as [|x col IH]; intros st acc.
  - simpl. destruct (st <=? k) eqn:E1; simpl; [|reflexivity].
    destruct (k <? st + 0) eqn:E2; [|reflexivity].
    apply Nat.leb_le in E1. apply Nat.ltb_lt in E2. lia.
  - simpl length. simpl seq. simpl map. simpl map2. simpl fold_left.
    rewrite IH.
    destruct (Nat.eqb_spec k st) as [->|Hne].
    + replace (S st <=? st) with false by (symmetry; apply Nat.leb_gt; lia).
      simpl andb.
      replace (st <=? st) with true by (symmetry; apply Nat.leb_le; lia).
      replace (st <? st + S (length col)) with true
        by (symmetry; apply Nat.ltb_lt; lia).
      simpl andb. rewrite Nat.sub_diag. reflexivity.
    + rewrite rmul_zero_l, radd_zero_r.
      destruct (Nat.leb_spec (S st) k) as [Hle|Hgt].
      * replace (st <=? k) with true by (symmetry; apply Nat.leb_le; lia).
        replace (k <? st + S (length col)) with (k <? S st + length col)
          by (f_equal; lia).
        replace (k - st) with (S (k - S st)) by lia. reflexivity.
      * simpl andb.
        replace (st <=? k) with false by (symmetry; apply Nat.leb_gt; lia).
        reflexivity.
Qed.

(** X8. After a normal return of [pca] the stored scores are the right
    factor with row [k] scaled by the singular value [k]:
    [pc_weights[k, n] = pca_S[k] * pca_V[k, n]]. *)
Theorem scores_scale_right_factor (s s' : pca_obj R) (sv : list R)
  (v w : matrix R) (k n : nat) :
  pca svd s = (Ok tt, s') ->
  pca_S s' = Some sv -> pca_V s' = Some v -> pc_weights s' = Some w ->
  k < length sv -> n < ncols v ->
  entry w k n = rmul (nth k sv rzero) (entry v k n).
Proof.
  intros Hp HS HV HW Hk Hn.
  destruct (@pca_ok_inv _ _ svd s s' Hp)
    as (m & u & sv' & v' & w' & _ & _ & Hd & ->).
  simpl in HS, HV, HW.
  injection HS as ->. injection HV as ->. injection HW as ->.
  unfold np_dot in Hd. simpl ncols in Hd.
  destruct (length sv =? nrows v) eqn:E; [|discriminate].
  apply Nat.eqb_eq in E. injection Hd as <-.
  unfold entry. simpl rows.
  rewrite (nth_indep _ [] (map (fun j => vsum (map2 rmul [] (column j v)))
                               (seq 0 (ncols v))))
    by (rewrite !length_map, length_seq; exact Hk).
  rewrite (map_nth (fun ra => map (fun j => vsum (map2 rmul ra (column j v)))
                                  (seq 0 (ncols v)))).
  rewrite nth_map_seq by exact Hn.
  rewrite (nth_map_seq _ [] Hk).
  unfold vsum.
  assert (L : length (column n v) = length sv)
    by (unfold column; rewrite length_map; unfold nrows in E; congruence).
  rewrite <- L at 1. rewrite diag_row_sum.
  replace (0 <=? k) with true by (symmetry; apply Nat.leb_le; lia).
  replace (k <? 0 + length (column n v)) with true
    by (symmetry; apply Nat.ltb_lt; lia).
  simpl andb. rewrite radd_zero_l, Nat.sub_0_r, nth_column. reflexivity.
Qed.

End Scores.

Section Reconstruction.
Context {R : Type} {N : Numeric R}.
Variable svd : matrix R -> option (matrix R * list R * matrix R).

Hypothesis add_back : forall x c : R, radd c (rsub x c) = x.

Lemma np_dot_column (a b p : matrix R) (n : nat) :
  np_dot a b = Ok p -> n < ncols b ->
  column n p = map (fun ra => vsum (map2 rmul ra (column n b))) (rows a).
Proof.
  unfold np_dot. destruct (ncols a =? nrows b); [|discriminate].
  intros [= <-] Hn. unfold column at 1. simpl rows. rewrite map_map.
  apply map_ext. intros ra.
  apply (@nth_map_seq R (fun j => vsum (map2 rmul ra (column j b)))
           (ncols b) n rzero Hn).
Qed.

Lemma add_back_mean (n : nat) (rws : list (list R)) :
  forall mu : list R,
  length mu = length rws ->
  Forall (fun r => n < length r) rws ->
  map2 radd mu
       (map (fun r => nth n r rzero)
            (map2 (fun r c => map (fun x => rsub x c) r) rws mu))
  = map (fun r => nth n r rzero) rws.
Proof.
  induction rws as [|r rws IH]; intros [|c mu] E H; simpl in *;
    try discriminate; auto.
  inversion H as [|? ? Hr Hrest]; subst.
  rewrite (nth_indep _ rzero (rsub rzero c)) by (rewrite length_map; exact Hr).
  rewrite (map_nth (fun x => rsub x c)), add_back.
  f_equal. apply IH; [congruence | exact Hrest].
Qed.

(** X9. When the factors returned by the decomposition multiply back to
    the centred matrix, the scores of training shape [n], given to
    [newShape] in the 'eigs' mode, give back column [n] of [X]: every
    training shape is reconstructed from its own scores. *)
Theorem training_shape_reconstructed (s s' : pca_obj R) (m : matrix R)
  (mdl : ShapeModel R) (n : nat) :
  X s = Some (Arr2 m) -> wf_matrix m ->
  pca svd s = (Ok tt, s') ->
  model_of s' = Some mdl ->
  np_dot (basis mdl) (scores mdl) = Ok (sub_column m (mean mdl)) ->
  n < ncols m ->
  newShape (column n (scores mdl)) "eigs" s' = (Ok (column n m), s').
Proof.
  intros HX W Hp Hm Hdot Hn.
  destruct (model_of_attrs s' Hm) as (Hmu & HU & _ & Hw & _).
  destruct (@pca_ok_inv _ _ svd s s' Hp)
    as (m' & u & sv & v & w & HX' & _ & _ & ->).
  rewrite HX in HX'. injection HX' as <-.
  simpl in Hmu. injection Hmu as Hmean.
  assert (Hlen : length (mean mdl) = nrows m)
    by (rewrite <- Hmean; unfold mean_axis1, nrows; apply length_map).
  rewrite (newShape_eigs_expr _ (column n (scores mdl)) HU
             (f_equal Some Hmean)).
  assert (Hshape : ncols (basis mdl) = nrows (scores mdl)
                   /\ ncols (scores mdl) = ncols m).
  { revert Hdot. unfold np_dot.
    destruct (ncols (basis mdl) =? nrows (scores mdl)) eqn:E; [|discriminate].
    intros H. apply Nat.eqb_eq in E. split; [exact E|].
    apply (f_equal (fun o => match o with
                             | Ok p => ncols p
                             | Raise _ => 0
                             end)) in H.
    exact H. }
  destruct Hshape as (HK & HN).
  rewrite np_mul_bcast_same
    by (unfold column; rewrite length_map; exact HK).
  simpl. unfold np_sum_axis1. simpl rows. rewrite map_map.
  rewrite <- (@np_dot_column (basis mdl) (scores mdl) _ n Hdot)
    by (rewrite HN; exact Hn).
  unfold column at 1, sub_column. simpl rows.
  assert (Hge : Forall (fun r => n < length r) (rows m)).
  { unfold wf_matrix in W. eapply Forall_impl; [|exact W].
    intros r Hr. simpl in Hr. rewrite Hr. exact Hn. }
  rewrite np_add_bcast_same.
  - unfold vec_add.
    rewrite (@add_back_mean n (rows m) (mean mdl) Hlen Hge). reflexivity.
  - rewrite length_map, map2_length; unfold nrows in Hlen; congruence.
Qed.

End Reconstruction.

(** ** Synthesis and the other calls *)

Section SynthesisState.
Context {R : Type} {N : Numeric R}.
Variable svd : matrix R -> option (matrix R * list R * matrix R).
Variable registration :
  AmpObject R -> AmpObject R -> bool -> nat -> outcome (AmpObject R).
Variable policy : ragged_policy.
Variable load : string -> bool -> AmpObject R.
Variable planarTrim : R -> AmpObject R -> AmpObject R.

(** [newShape] reads three attributes only. *)
Lemma newShape_reads_model (sfs : list R) (scale : string)
  (s1 s2 : pca_obj R) :
  pca_mean s1 = pca_mean s2 -> pca_U s1 = pca_U s2 ->
  pc_stdevs s1 = pc_stdevs s2 ->
  fst (newShape sfs scale s1) = fst (newShape sfs scale s2).
Proof.
  intros Hm HU Hs. unfold newShape, bind, getattr, lift, ret, raise.
  destruct (String.eqb scale "eigs").
  - rewrite HU. destruct (pca_U s2) as [u|]; [|reflexivity].
    destruct (np_mul_bcast u sfs); [|reflexivity].
    rewrite Hm. destruct (pca_mean s2); reflexivity.
  - destruct (String.eqb scale "std").
    + rewrite HU. destruct (pca_U s2) as [u|]; [|reflexivity].
      rewrite Hs. destruct (pc_stdevs s2) as [sd|]; [|reflexivity].
      destruct (np_mul_bcast u sd) as [t|]; [|reflexivity].
      destruct (np_mul_bcast t sfs); [|reflexivity].
      rewrite Hm. destruct (pca_mean s2); reflexivity.
    + rewrite Hm. destruct (pca_mean s2); reflexivity.
Qed.

(** X10. [newShape] never changes the object, whether it returns or
    raises, so a second call sees exactly what the first one saw. *)
Theorem newShape_is_read_only (sfs sfs' : list R) (scale scale' : string)
  (s : pca_obj R) :
  snd (newShape sfs scale s) = s /\
  newShape sfs' scale' (snd (newShape sfs scale s))
  = newShape sfs' scale' s.
Proof.
  pose proof (newShape_state sfs scale s) as H.
  split; [exact H | rewrite H; reflexivity].
Qed.

Lemma register_keeps_model (s : pca_obj R) :
  let s' := snd (register registration policy s) in
  pca_mean s' = pca_mean s /\ pca_U s' = pca_U s /\
  pc_stdevs s' = pc_stdevs s.
Proof.
  pose proof (register_each_state registration (shapes s) s) as Hs.
  unfold register, bind, gets, setattr, getattr, lift.
  destruct (register_each registration (shapes s) s) as [[regs|e] s1];
    simpl in Hs; subst s1; simpl; [|auto].
  destruct (build_X policy regs); simpl; auto.
Qed.

(** X11. Only [pca] changes what [newShape] returns: after a new
    baseline, a new corpus, a slicing or a new registration, [newShape]
    still answers from the model of the last fit, although that model no
    longer belongs to the current [X]. *)
Theorem synthesis_survives_other_calls (c : call R) (s : pca_obj R)
  (sfs : list R) (scale : string) :
  c <> CallPca ->
  fst (newShape sfs scale
         (snd (run_call svd registration policy load planarTrim c s)))
  = fst (newShape sfs scale s).
Proof.
  intros Hc. apply newShape_reads_model; destruct c; simpl;
    try reflexivity; try congruence;
    try (apply register_keeps_model).
  - pose proof (newShape_state sfs0 scale0 s) as H.
    destruct (newShape sfs0 scale0 s) as [[v|e] s1]; simpl in *;
      subst; reflexivity.
  - pose proof (newShape_state sfs0 scale0 s) as H.
    destruct (newShape sfs0 scale0 s) as [[v|e] s1]; simpl in *;
      subst; reflexivity.
  - pose proof (newShape_state sfs0 scale0 s) as H.
    destruct (newShape sfs0 scale0 s) as [[v|e] s1]; simpl in *;
      subst; reflexivity.
Qed.

End SynthesisState.

(** ** The two modes, the result and a failed refit *)

Section Modes.
Context {R : Type} {N : Numeric R}.
Variable svd : matrix R -> option (matrix R * list R * matrix R).

Lemma map2_rmul_assoc :
  (forall a b c : R, rmul (rmul a b) c = rmul a (rmul b c)) ->
  forall r sd c : list R,
  map2 rmul (map2 rmul r sd) c = map2 rmul r (map2 rmul sd c).
Proof.
  intros A. induction r as [|x r IH]; intros [|y sd] [|z c]; simpl; auto.
  rewrite A, IH. reflexivity.
Qed.

(** X12. When multiplication is associative, on a fitted model and a
    coefficient vector of length [K] the 'std' mode is the 'eigs' mode
    applied to the coefficients multiplied, mode by mode, by the stored
    standard deviations. *)
Theorem std_mode_is_scaled_eigs_mode (s : pca_obj R) (mdl : ShapeModel R)
  (D K : nat) (c : list R) :
  (forall a b c : R, rmul (rmul a b) c = rmul a (rmul b c)) ->
  model_of s = Some mdl -> wf_model D K mdl -> length c = K ->
  newShape c "std" s = newShape (map2 rmul (modeStdDevs mdl) c) "eigs" s.
Proof.
  intros A Hm (Hlen & Hr & Hc & Wu & Hsd) E.
  destruct (model_of_attrs s Hm) as (Hmu & HU & _ & _ & Hs).
  rewrite (newShape_std_expr s c HU Hmu Hs).
  rewrite (newShape_eigs_expr s _ HU Hmu).
  rewrite np_mul_bcast_same by congruence. simpl.
  rewrite np_mul_bcast_same by (simpl; congruence). simpl.
  rewrite np_mul_bcast_same by (rewrite map2_length; congruence). simpl.
  rewrite map_map.
  rewrite (map_ext _ _ (fun r => map2_rmul_assoc A r (modeStdDevs mdl) c)).
  reflexivity.
Qed.

Lemma np_mul_bcast_rows (u t : matrix R) (c : list R) :
  np_mul_bcast u c = Ok t -> nrows t = nrows u.
Proof.
  unfold np_mul_bcast, nrows.
  destruct (ncols u =? length c); [intros [= <-]; apply length_map|].
  destruct (length c =? 1); [intros [= <-]; apply length_map|].
  destruct (ncols u =? 1); [intros [= <-]; apply length_map|].
  discriminate.
Qed.

Lemma newShape_unknown_scale_mean (s : pca_obj R) (c : list R)
  (scale : string) (mu : list R) :
  pca_mean s = Some mu -> scale <> "eigs" -> scale <> "std" ->
  newShape c scale s = (Raise (UnboundLocalError "sf"), s).
Proof.
  intros Hmu H1 H2.
  apply String.eqb_neq in H1. apply String.eqb_neq in H2.
  unfold newShape, bind, getattr, ret, raise.
  rewrite H1, H2, Hmu. reflexivity.
Qed.

(** X13. On a fitted model over [D] coordinates, whenever [newShape]
    returns, in whatever mode and for whatever length of the coefficient
    vector, the shape it returns has exactly [D] entries. *)
Theorem newShape_result_length (s s' : pca_obj R) (mdl : ShapeModel R)
  (D K : nat) (c v : list R) (scale : string) :
  model_of s = Some mdl -> wf_model D K mdl ->
  newShape c scale s = (Ok v, s') ->
  length v = D.
Proof.
  intros Hm (Hlen & Hr & Hc & Wu & Hsd) H.
  destruct (model_of_attrs s Hm) as (Hmu & HU & _ & _ & Hs).
  assert (Hadd : forall t, nrows t = D ->
            np_add_bcast (mean mdl) (np_sum_axis1 t) = Ok v -> length v = D).
  { intros t Ht. rewrite np_add_bcast_same
      by (unfold np_sum_axis1; rewrite length_map; unfold nrows in Ht;
          congruence).
    intros [= <-]. unfold vec_add. rewrite map2_length; [exact Hlen|].
    unfold np_sum_axis1. rewrite length_map. unfold nrows in Ht. congruence. }
  destruct (String.eqb scale "eigs") eqn:E1.
  - apply String.eqb_eq in E1. subst scale.
    rewrite (newShape_eigs_expr s c HU Hmu) in H.
    destruct (np_mul_bcast (basis mdl) c) as [t|] eqn:Et; [|discriminate].
    simpl in H. injection H as H _.
    apply (Hadd t); [|exact H].
    rewrite (np_mul_bcast_rows _ _ Et). exact Hr.
  - destruct (String.eqb scale "std") eqn:E2.
    + apply String.eqb_eq in E2. subst scale.
      rewrite (newShape_std_expr s c HU Hmu Hs) in H.
      destruct (np_mul_bcast (basis mdl) (modeStdDevs mdl)) as [t|] eqn:Et;
        [|discriminate].
      simpl in H.
      destruct (np_mul_bcast t c) as [t'|] eqn:Et'; [|discriminate].
      simpl in H. injection H as H _.
      apply (Hadd t'); [|exact H].
      rewrite (np_mul_bcast_rows _ _ Et'), (np_mul_bcast_rows _ _ Et).
      exact Hr.
    + apply String.eqb_neq in E1, E2.
      rewrite (@newShape_unknown_scale_mean s c scale (mean mdl) Hmu E1 E2)
        in H.
      discriminate.
Qed.

(** X14. When a new fit fails in the decomposition on a matrix with as
    many rows as the fitted model has coordinates, [newShape] keeps
    answering, from a mixture: the row means of the new [X] plus the
    modes of the earlier basis. *)
Theorem failed_refit_mixes_models (s : pca_obj R) (mdl : ShapeModel R)
  (m : matrix R) (D K : nat) (c : list R) :
  model_of s = Some mdl -> wf_model D K mdl ->
  X s = Some (Arr2 m) -> nrows m = D ->
  svd (sub_column m (mean_axis1 m)) = None ->
  length c = K ->
  let s' := snd (pca svd s) in
  fst (pca svd s) = Raise LinAlgError /\
  newShape c "eigs" s'
  = (Ok (vec_add (mean_axis1 m)
           (mode_sum D (basis_columns (basis mdl)) c)), s').
Proof.
  intros Hm W HX HD Hsvd E.
  rewrite (pca_two_dimensional svd s HX), Hsvd. simpl.
  split; [reflexivity|].
  destruct (model_of_attrs s Hm) as (_ & HU & HS & Hw & Hs).
  set (mdl' := {| mean := mean_axis1 m; basis := basis mdl;
                  singularValues := singularValues mdl;
                  scores := scores mdl;
                  modeStdDevs := modeStdDevs mdl |}).
  assert (W' : wf_model D K mdl').
  { destruct W as (Hlen & Hr & Hc & Wu & Hsd).
    unfold wf_model, mdl'. simpl. repeat split; auto.
    unfold mean_axis1. rewrite length_map. exact HD. }
  rewrite (@newShape_eigs_expr _ _ (after_mean m s) (basis mdl)
             (mean_axis1 m) c HU eq_refl).
  rewrite (raw_expr_spec (mdl := mdl') c W' E).
  unfold synthesize_raw, mdl'. simpl.
  destruct W as (_ & Hr & _). rewrite Hr. reflexivity.
Qed.

End Modes.

(** ** The data matrix, read back *)


Section ReadBack.
Context {R : Type} {N : Numeric R}.
Variable registration :
  AmpObject R -> AmpObject R -> bool -> nat -> outcome (AmpObject R).
Variable policy : ragged_policy.
Variable svd : matrix R -> option (matrix R * list R * matrix R).



(** X15. For a non-empty registered set of shapes with [V] vertices
    each, after [register] and [pca], whether or not the decomposition
    succeeds, the stored mean has [3 V] entries and its entry [3 i + j]
    is the average over the registered shapes of coordinate [j] of
    vertex [i]. *)
Theorem mean_is_vertex_average (s : pca_obj R)
  (regs : list (AmpObject R)) (V i j : nat) :
  fst (register_each registration (shapes s) s) = Ok regs ->
  regs <> [] ->
  Forall (fun r => length (vert r) = V) regs ->
  i < V -> j < 3 ->
  exists mu,
    pca_mean (snd (pca svd (snd (register registration policy s))))
    = Some mu /\
    length mu = 3 * V /\
    nth (3 * i + j) mu rzero
    = row_average
        (map (fun r => coord j (nth i (vert r) (rzero, rzero, rzero))) regs).
Proof.
  intros Hreg Hne HV Hi Hj.
  set (M := Mat (3 * V) (map (fun r => flatten (vert r)) regs)).
  destruct (transpose_wf M) as (WT & RT & CT).
  rewrite (register_run registration policy s Hreg).
  rewrite (build_X_uniform policy Hne HV). fold M. simpl snd.
  exists (mean_axis1 (transpose M)). repeat split.
  - rewrite (@pca_two_dimensional _ _ svd _ (transpose M)) by reflexivity.
    destruct (svd (sub_column (transpose M) (mean_axis1 (transpose M))))
      as [[[u sv] v]|]; [|reflexivity].
    destruct (np_dot (np_diag sv) v); reflexivity.
  - unfold mean_axis1. rewrite length_map. exact RT.
  - rewrite (mean_axis1_row_average WT).
    unfold transpose. simpl rows. rewrite map_map.
    rewrite nth_map_seq by (simpl; lia).
    f_equal. unfold column, M. simpl rows. rewrite map_map.
    apply map_ext_in. intros r Hr. apply flatten_nth; [|exact Hj].
    rewrite Forall_forall in HV. rewrite (HV r Hr). exact Hi.
Qed.


End ReadBack.

Section FitInputs.
Context {R : Type} {N : Numeric R}.
Variable svd : matrix R -> option (matrix R * list R * matrix R).

(** X17. Whatever its outcome, [pca] leaves the corpus, the baseline,
    the registered shapes and [X] as they were: it writes model
    attributes only. *)
Theorem pca_keeps_inputs (s : pca_obj R) :
  let s' := snd (pca svd s) in
  shapes s' = shapes s /\ baseline s' = baseline s /\
  registered s' = registered s /\ X s' = X s.
Proof.
  destruct (X s) as [[x|m|items]|] eqn:HX.
  - rewrite (pca_one_dimensional svd s HX) by discriminate. simpl. auto.
  - rewrite (pca_two_dimensional svd s HX).
    destruct (svd (sub_column m (mean_axis1 m))) as [[[u sv] v]|];
      [|simpl; rewrite HX; auto].
    destruct (np_dot (np_diag sv) v); simpl; rewrite HX; auto.
  - rewrite (pca_one_dimensional svd s HX) by discriminate. simpl. auto.
  - rewrite (pca_unbound_X svd s HX). simpl. auto.
Qed.

End FitInputs.

(** ** Instances of the further properties *)


Lemma register_aborts_on_registration_error_witness :
  exists t' e',
    In t' (shapes picky_obj) /\
    picky_registration (mesh_of [(0, 0, 0)]%Z) t' true 10 = Raise e' /\
    register picky_registration LegacyObjectArray picky_obj
    = (Raise e', picky_obj).
Proof.
  apply (@register_aborts_on_registration_error Z _ picky_registration
           LegacyObjectArray picky_obj (mesh_of [(0, 0, 0)]%Z)
           (empty_mesh Z) (CollaboratorError "RegistrationError")).
  - reflexivity.
  - simpl. auto.
  - reflexivity.
Defined.

Lemma register_without_baseline_witness :
  register identity_registration LegacyObjectArray no_baseline_obj
  = (Raise (AttributeError "baseline"), no_baseline_obj).
Proof.
  apply (@register_without_baseline Z _ identity_registration
           LegacyObjectArray no_baseline_obj).
  reflexivity.
Defined.

Lemma empty_folder_pipeline_witness :
  let s1 := snd (importFolder demo_load ["notes.txt"; "scan.ply"] "scans/"
                              true (init Z)) in
  let s2 := set_X (Arr1 []) (set_registered [] s1) in
  shapes s1 = [] /\
  register identity_registration LegacyObjectArray s1 = (Ok tt, s2) /\
  pca zero_svd s2 = (Raise (AxisError 1 1), s2).
Proof.
  apply (@empty_folder_pipeline Z _ zero_svd identity_registration
           LegacyObjectArray demo_load ["notes.txt"; "scan.ply"] "scans/"
           true (init Z)).
  intros f stem [<-|[<-|[]]] H;
    apply (f_equal (fun x => endswith x ".stl")) in H;
    rewrite (proj2 (endswith_spec (stem ++ ".stl") ".stl")) in H
      by (exists stem; reflexivity);
    vm_compute in H; discriminate.
Defined.

Lemma pca_outcomes_witness :
  match X demo_data with
  | None => pca zero_svd demo_data = (Raise (AttributeError "X"), demo_data)
  | Some (Arr2 m) =>
      match zero_svd (sub_column m (mean_axis1 m)) with
      | None => pca zero_svd demo_data
                = (Raise LinAlgError, after_mean m demo_data)
      | Some (u, sv, v) =>
          exists w, np_dot (np_diag sv) v = Ok w /\
                    pca zero_svd demo_data
                    = (Ok tt, after_fit m u sv v w demo_data)
      end
  | Some _ => pca zero_svd demo_data = (Raise (AxisError 1 1), demo_data)
  end.
Proof.
  apply (@pca_outcomes Z _ zero_svd demo_data). exact zero_svd_thin.
Defined.

Lemma pca_establishes_model_witness :
  exists mdl,
    model_of (snd (pca zero_svd demo_data)) = Some mdl /\
    wf_model 2 2 mdl /\
    mean mdl = [2; 4]%Z /\
    length (singularValues mdl) = 2 /\
    wf_matrix (scores mdl) /\
    nrows (scores mdl) = 2 /\
    ncols (scores mdl) = 3.
Proof.
  exact (@pca_establishes_model Z _ zero_svd demo_data
           (snd (pca zero_svd demo_data))
           (Mat 3 [[1; 2; 3]; [4; 4; 4]]%Z)
           zero_svd_thin eq_refl eq_refl).
Defined.

Lemma scores_scale_right_factor_witness :
  entry (Mat 3 [[3; 0; 6]; [0; 2; 10]]%Z) 1 2
  = rmul (nth 1 [3; 2]%Z rzero) (entry (Mat 3 [[1; 0; 2]; [0; 1; 5]]%Z) 1 2).
Proof.
  apply (@scores_scale_right_factor Z Numeric_Z demo_svd
           (fun x => Z.add_0_l x) (fun x => Z.add_0_r x)
           (fun x => Z.mul_0_l x)
           demo_data demo_fitted [3; 2]%Z
           (Mat 3 [[1; 0; 2]; [0; 1; 5]]%Z)
           (Mat 3 [[3; 0; 6]; [0; 2; 10]]%Z) 1 2).
  - reflexivity.
  - reflexivity.
  - reflexivity.
  - reflexivity.
  - simpl. lia.
  - simpl. lia.
Defined.

Lemma training_shape_reconstructed_witness :
  newShape (column 1 (scores recon_model)) "eigs"
           (snd (pca recon_svd recon_data))
  = (Ok [3; 2]%Z, snd (pca recon_svd recon_data)).
Proof.
  apply (@training_shape_reconstructed Z Numeric_Z recon_svd
           (fun x c => Zplus_minus c x)
           recon_data (snd (pca recon_svd recon_data))
           (Mat 2 [[1; 3]; [2; 2]]%Z) recon_model 1).
  - reflexivity.
  - repeat constructor.
  - reflexivity.
  - reflexivity.
  - reflexivity.
  - simpl. lia.
Defined.

Lemma synthesis_survives_other_calls_witness :
  fst (newShape [1; 2; 3]%Z "eigs"
         (snd (run_call zero_svd identity_registration LegacyObjectArray
                        demo_load no_trim CallRegister three_mode_obj)))
  = fst (newShape [1; 2; 3]%Z "eigs" three_mode_obj).
Proof.
  apply (@synthesis_survives_other_calls Z _ zero_svd identity_registration
           LegacyObjectArray demo_load no_trim CallRegister three_mode_obj
           [1; 2; 3]%Z "eigs").
  discriminate.
Defined.

Lemma std_mode_is_scaled_eigs_mode_witness :
  newShape [1; 2]%Z "std" demo_fitted
  = newShape (map2 rmul (modeStdDevs demo_model) [1; 2]%Z) "eigs" demo_fitted.
Proof.
  apply (@std_mode_is_scaled_eigs_mode Z _ demo_fitted demo_model 2 2
           [1; 2]%Z).
  - intros a b c. exact (eq_sym (Z.mul_assoc a b c)).
  - reflexivity.
  - exact wf_demo_model.
  - reflexivity.
Defined.

Lemma newShape_result_length_witness : length [15]%Z = 1.
Proof.
  apply (@newShape_result_length Z _ three_mode_obj three_mode_obj
           three_mode_model 1 3 [5]%Z [15]%Z "eigs").
  - reflexivity.
  - exact wf_three_mode_model.
  - reflexivity.
Defined.

Lemma failed_refit_mixes_models_witness :
  let s' := snd (pca failing_svd demo_fitted) in
  fst (pca failing_svd demo_fitted) = Raise LinAlgError /\
  newShape [1; 1]%Z "eigs" s'
  = (Ok (vec_add (mean_axis1 (Mat 3 [[1; 2; 3]; [4; 4; 4]]%Z))
           (mode_sum 2 (basis_columns (basis demo_model)) [1; 1]%Z)), s').
Proof.
  apply (@failed_refit_mixes_models Z _ failing_svd demo_fitted demo_model
           (Mat 3 [[1; 2; 3]; [4; 4; 4]]%Z) 2 2 [1; 1]%Z).
  - reflexivity.
  - exact wf_demo_model.
  - reflexivity.
  - reflexivity.
  - reflexivity.
  - reflexivity.
Defined.

Lemma mean_is_vertex_average_witness :
  exists mu,
    pca_mean (snd (pca zero_svd
                     (snd (register identity_registration LegacyObjectArray
                                    scenario_obj))))
    = Some mu /\
    length mu = 3 * 4 /\
    nth (3 * 1 + 0) mu rzero
    = row_average
        (map (fun r => coord 0 (nth 1 (vert r) (rzero, rzero, rzero)))
             scenario_shapes).
Proof.
  apply (@mean_is_vertex_average Z _ identity_registration LegacyObjectArray
           zero_svd scenario_obj scenario_shapes 4 1 0).
  - reflexivity.
  - discriminate.
  - repeat constructor.
  - lia.
  - lia.
Defined.

